(** * The EROFS layer converter of erofs-container-toolkit

    A shallow embedding of [pkg/converter/converter.go]: the functional
    options, the argument list handed to [mkfs.erofs], the once-only probe for
    the builder and the conversion closure returned by [LayerConvertFunc].

    The closure talks to collaborators that live outside the package (the
    content store and its writer, the uncompress converter, the file system
    and the [mkfs.erofs] process).  Each such call is a constructor of
    [Call]; what a call answers and how it changes the outside world is given
    by a handler over an arbitrary world type, so every theorem holds for
    every behaviour of the collaborators.  A run returns, next to the Go
    result, the list of calls it made together with their answers. *)

From Stdlib Require Import ZArith.
From stdpp Require Import base tactics option list strings gmap.

Local Open Scope Z_scope.
Local Open Scope string_scope.
Local Open Scope list_scope.

(** ** Errors *)

(** An argument of a [fmt.Errorf] call. *)
Inductive fmtarg :=
| FString (s : string)
| FStrings (l : list string)
| FBytes (b : list Byte.byte).

(** Go [error] values: the two [errdefs] sentinels the converter names, any
    other error a collaborator hands back, and the errors the converter
    builds itself with [fmt.Errorf] (without and with a [%w] verb). *)
Inductive error :=
| ErrNotImplemented
| ErrAlreadyExists
| ErrExternal (msg : string)
| Errorf (format : string) (args : list fmtarg)
| Errorfw (format : string) (args : list fmtarg) (wrapped : error).

(** [errdefs.IsAlreadyExists]: [errors.Is(err, ErrAlreadyExists)], which
    follows the chain of wrapped errors. *)
Fixpoint IsAlreadyExists (err : error) : bool :=
  match err with
  | ErrAlreadyExists => true
  | Errorfw _ _ wrapped => IsAlreadyExists wrapped
  | _ => false
  end.

(** ** Data *)

(** [ocispec.Platform] and [ocispec.Descriptor]. *)
Record Platform := {
  Architecture : string;
  OS : string;
  OSVersion : string;
  OSFeatures : list string;
  Variant : string
}.

Record Descriptor := {
  MediaType : string;
  Digest : string;
  Size : Z;
  URLs : list string;
  Annotations : gmap string string;
  Data : list Byte.byte;
  Platform_ : option Platform;
  ArtifactType : string
}.

(** Assignments to the three fields the converter rewrites. *)
Definition set_MediaType (v : string) (d : Descriptor) : Descriptor :=
  {| MediaType := v; Digest := Digest d; Size := Size d; URLs := URLs d;
     Annotations := Annotations d; Data := Data d; Platform_ := Platform_ d;
     ArtifactType := ArtifactType d |}.

Definition set_Digest (v : string) (d : Descriptor) : Descriptor :=
  {| MediaType := MediaType d; Digest := v; Size := Size d; URLs := URLs d;
     Annotations := Annotations d; Data := Data d; Platform_ := Platform_ d;
     ArtifactType := ArtifactType d |}.

Definition set_Size (v : Z) (d : Descriptor) : Descriptor :=
  {| MediaType := MediaType d; Digest := Digest d; Size := v; URLs := URLs d;
     Annotations := Annotations d; Data := Data d; Platform_ := Platform_ d;
     ArtifactType := ArtifactType d |}.

(** [content.Info]; [Labels] is a Go map and may be nil. *)
Record Info := {
  info_Digest : string;
  info_Size : Z;
  Labels : option (gmap string string)
}.

(** [labels.LabelUncompressed]. *)
Definition LabelUncompressed : string := "containerd.io/uncompressed".

(** Handles of the objects the collaborators hand out. *)
Inductive ReaderAt := ReaderAtHandle (id : N).
Inductive Writer := WriterHandle (id : N).
Record File := { fd : N; Name : string }.

(** [io.SectionReader], as built by [io.NewSectionReader]. *)
Record SectionReader := NewSectionReader { sr_r : ReaderAt; sr_off : Z; sr_n : Z }.

(** ** Options *)

Record options := {
  uuid : string;
  compressors : string;
  extraMkfsOpts : string
}.

(** [type Option func(o *options) error].  The struct [options] is not
    exported, so the closures returned by the three functions below are the
    only values of the type other than nil; a closure is represented by the
    function that made it and [applyOption] is its body: the updated struct
    and the returned error. *)
Inductive Option :=
| WithCompressors (compressors : string)
| WithUUID (uuid : string)
| WithExtraMkfsOption (extraMkfsOpts : string).

Definition applyOption (o : Option) (opts : options) : options * option error :=
  match o with
  | WithCompressors c =>
      ({| uuid := uuid opts; compressors := c; extraMkfsOpts := extraMkfsOpts opts |}, None)
  | WithUUID u =>
      ({| uuid := u; compressors := compressors opts; extraMkfsOpts := extraMkfsOpts opts |}, None)
  | WithExtraMkfsOption e =>
      ({| uuid := uuid opts; compressors := compressors opts; extraMkfsOpts := e |}, None)
  end.

(** [var opts options]: the zero value. *)
Definition zeroOptions : options :=
  {| uuid := ""; compressors := ""; extraMkfsOpts := "" |}.

(** The loop [for _, o := range opt] at the head of the closure: it stops at
    the first option that returns an error. *)
Fixpoint applyOptions (opt : list Option) (opts : options) : options * option error :=
  match opt with
  | [] => (opts, None)
  | o :: rest =>
      match applyOption o opts with
      | (opts', Some err) => (opts', Some err)
      | (opts', None) => applyOptions rest opts'
      end
  end.

(** The assembly of [extraopts] (the three [if] statements before the call
    of [convertTarErofs]). *)
Definition mkfsExtraOpts (opts : options) : list string :=
  let extraopts : list string := [] in
  let extraopts :=
    if negb (String.eqb (uuid opts) "")
    then extraopts ++ [uuid opts]
    else extraopts ++ ["-U"; "fead9a88-fd26-578a-a655-9cbddcb89e76"] in
  let extraopts :=
    if negb (String.eqb (compressors opts) "")
    then (extraopts ++ ["-z"; compressors opts]) ++ ["-C"; "65536"]
    else extraopts in
  let extraopts :=
    if negb (String.eqb (extraMkfsOpts opts) "")
    then extraopts ++ [extraMkfsOpts opts]
    else extraopts in
  extraopts.

(** ** Calls to the collaborators *)

(** A call and the Go type of what it returns.  [cmd_CombinedOutput] stands
    for [exec.CommandContext(ctx, name, args...)] with [Stdin] set, run by
    [CombinedOutput]; [io_Copy] for [io.Copy(w, blob)]. *)
Inductive Call : Type → Type :=
| exec_LookPath (file : string) : Call (string * option error)
| uncompress_LayerConvertFunc (desc : Descriptor) : Call (option Descriptor * option error)
| cs_Info (dgst : string) : Call (Info * option error)
| cs_ReaderAt (desc : Descriptor) : Call (ReaderAt * option error)
| ra_Close (ra : ReaderAt) : Call (option error)
| ioutil_TempFile (dir pattern : string) : Call (File * option error)
| os_Remove (name : string) : Call (option error)
| blob_Close (f : File) : Call (option error)
| cmd_CombinedOutput (name : string) (args : list string) (stdin : SectionReader) :
    Call (list Byte.byte * option error)
| content_OpenWriter (ref : string) : Call (Writer * option error)
| w_Truncate (w : Writer) (size : Z) : Call (option error)
| io_Copy (dst : Writer) (src : File) : Call (Z * option error)
| w_Digest (w : Writer) : Call string
| w_Commit (w : Writer) (size : Z) (expected : string) (labels : gmap string string) :
    Call (option error)
| w_Close (w : Writer) : Call (option error).

(** A call that was made, with its answer. *)
Inductive Event :=
| EvLookPath (file path : string) (err : option error)
| EvUncompress (desc : Descriptor) (res : option Descriptor) (err : option error)
| EvInfo (dgst : string) (info : Info) (err : option error)
| EvReaderAt (desc : Descriptor) (ra : ReaderAt) (err : option error)
| EvRaClose (ra : ReaderAt) (err : option error)
| EvTempFile (dir pattern : string) (f : File) (err : option error)
| EvRemove (name : string) (err : option error)
| EvBlobClose (f : File) (err : option error)
| EvCombinedOutput (name : string) (args : list string) (stdin : SectionReader)
    (out : list Byte.byte) (err : option error)
| EvOpenWriter (ref : string) (w : Writer) (err : option error)
| EvTruncate (w : Writer) (size : Z) (err : option error)
| EvCopy (dst : Writer) (src : File) (n : Z) (err : option error)
| EvDigest (w : Writer) (dgst : string)
| EvCommit (w : Writer) (size : Z) (expected : string) (labels : gmap string string)
    (err : option error)
| EvWriterClose (w : Writer) (err : option error).

Definition event_of {R} (c : Call R) : R → Event :=
  match c in Call R return R → Event with
  | exec_LookPath file => λ r, EvLookPath file r.1 r.2
  | uncompress_LayerConvertFunc desc => λ r, EvUncompress desc r.1 r.2
  | cs_Info dgst => λ r, EvInfo dgst r.1 r.2
  | cs_ReaderAt desc => λ r, EvReaderAt desc r.1 r.2
  | ra_Close ra => λ r, EvRaClose ra r
  | ioutil_TempFile dir pattern => λ r, EvTempFile dir pattern r.1 r.2
  | os_Remove name => λ r, EvRemove name r
  | blob_Close f => λ r, EvBlobClose f r
  | cmd_CombinedOutput name args stdin => λ r, EvCombinedOutput name args stdin r.1 r.2
  | content_OpenWriter ref => λ r, EvOpenWriter ref r.1 r.2
  | w_Truncate w size => λ r, EvTruncate w size r
  | io_Copy dst src => λ r, EvCopy dst src r.1 r.2
  | w_Digest w => λ r, EvDigest w r
  | w_Commit w size expected labels => λ r, EvCommit w size expected labels r
  | w_Close w => λ r, EvWriterClose w r
  end.

(** A call on the content store or on one of its readers and writers; the
    uncompress converter is handed the store and reads and writes it. *)
Definition store_op (ev : Event) : bool :=
  match ev with
  | EvUncompress _ _ _ | EvInfo _ _ _ | EvReaderAt _ _ _ | EvRaClose _ _
  | EvOpenWriter _ _ _ | EvTruncate _ _ _ | EvCopy _ _ _ _ | EvDigest _ _
  | EvCommit _ _ _ _ _ | EvWriterClose _ _ => true
  | _ => false
  end.

(** A call that can add or change content of the store. *)
Definition store_write (ev : Event) : bool :=
  match ev with
  | EvUncompress _ _ _ | EvOpenWriter _ _ _ | EvTruncate _ _ _ | EvCopy _ _ _ _
  | EvCommit _ _ _ _ _ => true
  | _ => false
  end.

(** The collaborators: a world, what every call answers in it and how it
    changes it, and the two media-type classifiers of containerd. *)
Record Collaborators := {
  World : Type;
  handle : ∀ R, Call R → World → R * World;
  IsLayerType : string → bool;
  IsUncompressedType : string → bool
}.
Arguments handle _ {R} _ _.

(** ** The converter *)

Section Converter.
Variable env : Collaborators.

(** The outside world and the two package-level variables [hasMkfs] and
    [hasMkfsOnce] (whether the [sync.Once] has fired). *)
Record State := {
  world : World env;
  hasMkfs : bool;
  hasMkfsOnce : bool
}.

(** A computation: the returned value, the state it leaves and the calls
    it made, oldest first. *)
Definition M (A : Type) : Type := State → A * State * list Event.

Definition ret {A} (a : A) : M A := λ s, (a, s, []).

Definition bind {A B} (m : M A) (k : A → M B) : M B :=
  λ s, let '(a, s1, t1) := m s in
       let '(b, s2, t2) := k a s1 in
       (b, s2, t1 ++ t2).

Definition call {R} (c : Call R) : M R :=
  λ s, let '(r, w) := handle env c (world s) in
       (r, {| world := w; hasMkfs := hasMkfs s; hasMkfsOnce := hasMkfsOnce s |},
        [event_of c r]).

Notation "'let*' x ':=' m 'in' k" := (bind m (λ x, k))
  (at level 10, x pattern, m at level 100, k at level 200).

(** [defer f()]: [f] runs when the rest of the function has returned, and
    what it returns is dropped. *)
Definition defer {A B} (f : M B) (rest : M A) : M A :=
  let* r := rest in let* _ := f in ret r.

(** [convertTarErofs]; the reader [r] becomes the standard input of the
    process.  The debug log line is not modelled. *)
Definition convertTarErofs (r : SectionReader) (layerPath : string)
    (mkfsExtraOpts : list string) : M (option error) :=
  let args := ["--tar=f"; "--aufs"; "--quiet"] ++ mkfsExtraOpts in
  let args := args ++ [layerPath] in
  let* (out, err) := call (cmd_CombinedOutput "mkfs.erofs" args r) in
  match err with
  | Some err =>
      ret (Some (Errorfw "mkfs.erofs %s failed: %s: %w"
                   [FStrings ("mkfs.erofs" :: args); FBytes out] err))
  | None => ret None
  end.

(** [hasMkfsErofs]: the body of [hasMkfsOnce.Do] runs on the first call
    only. *)
Definition hasMkfsErofs : M bool :=
  λ s,
    if hasMkfsOnce s then (hasMkfs s, s, [])
    else
      let '((_, err), s1, t) := call (exec_LookPath "mkfs.erofs") s in
      match err with
      | Some _ =>
          (hasMkfs s1,
           {| world := world s1; hasMkfs := hasMkfs s1; hasMkfsOnce := true |}, t)
      | None =>
          (true, {| world := world s1; hasMkfs := true; hasMkfsOnce := true |}, t)
      end.

(** What the closure returns: a pointer to an [ocispec.Descriptor], nil
    or not, and an [error], nil or not. *)
Definition result : Type := option Descriptor * option error.

(** [LayerConvertFunc(opt...)] applied to a descriptor; the store [cs] is
    part of the world. *)
Definition LayerConvertFunc (opt : list Option) (desc : Descriptor) : M result :=
  match applyOptions opt zeroOptions with
  | (_, Some err) => ret (None, Some err)
  | (opts, None) =>
    let* has := hasMkfsErofs in
    if negb has then ret (None, Some ErrNotImplemented) else
    if negb (IsLayerType env (MediaType desc)) then ret (None, None) else
    (* We need to uncompress the archive first.  The block leaves
       [uncompressedDesc], or returns from the closure with [stop]. *)
    let* (uncompressedDesc, stop) :=
      (if negb (IsUncompressedType env (MediaType desc)) then
         let* (uncompressedDesc, err) := call (uncompress_LayerConvertFunc desc) in
         match err, uncompressedDesc with
         | Some err, _ => ret (desc, Some (None, Some err))
         | None, None =>
             ret (desc, Some (None, Some (Errorf
               "unexpectedly got the same blob after compression (%s, %q)"
               [FString (Digest desc); FString (MediaType desc)])))
         | None, Some u => ret (u, None)
         end
       else ret (desc, None)) in
    match stop with Some r => ret r | None =>
    let* (info, _) := call (cs_Info (Digest desc)) in
    let labelz := default ∅ (Labels info) in
    let* (ra, err) := call (cs_ReaderAt uncompressedDesc) in
    match err with Some err => ret (None, Some err) | None =>
    defer (call (ra_Close ra)) (
    let sr := NewSectionReader ra 0 (Size uncompressedDesc) in
    let* (blob, err) := call (ioutil_TempFile "" "erofs-layer-") in
    match err with Some err => ret (None, Some err) | None =>
    defer (call (os_Remove (Name blob))) (
    defer (call (blob_Close blob)) (
    let extraopts := mkfsExtraOpts opts in
    let* err := convertTarErofs sr (Name blob) extraopts in
    match err with Some err => ret (None, Some err) | None =>
    let ref := "convert-erofs-from-" +:+ Digest desc in
    let* (w, err) := call (content_OpenWriter ref) in
    match err with Some err => ret (None, Some err) | None =>
    defer (call (w_Close w)) (
    (* Reset the writing position *)
    let* err := call (w_Truncate w 0) in
    match err with Some err => ret (None, Some err) | None =>
    let* (n, err) := call (io_Copy w blob) in
    match err with Some err => ret (None, Some err) | None =>
    let* err := call (blob_Close blob) in
    match err with Some err => ret (None, Some err) | None =>
    (* update diffID label *)
    let* dgst := call (w_Digest w) in
    let labelz := <[LabelUncompressed := dgst]> labelz in
    let* err := call (w_Commit w n "" labelz) in
    if match err with Some err => negb (IsAlreadyExists err) | None => false end
    then ret (None, err) else
    let* err := call (w_Close w) in
    match err with Some err => ret (None, Some err) | None =>
    let newDesc := desc in
    let newDesc := set_MediaType "application/vnd.erofs" newDesc in
    let* dgst := call (w_Digest w) in
    let newDesc := set_Digest dgst newDesc in
    let newDesc := set_Size n newDesc in
    ret (Some newDesc, None)
    end end end end) end end)) end) end end
  end.

(** What a computation returns from a state, the calls it makes and the
    state it leaves. *)
Definition returned {A} (m : M A) (s : State) : A := (m s).1.1.
Definition calls {A} (m : M A) (s : State) : list Event := (m s).2.
Definition final {A} (m : M A) (s : State) : State := (m s).1.2.

(** [wp m s Q]: the run of [m] from [s] ends in a result, a state and a
    list of calls that satisfy [Q]. *)
Definition wp {A} (m : M A) (s : State) (Q : A → State → list Event → Prop) : Prop :=
  Q (returned m s) (final m s) (calls m s).

End Converter.

Arguments world {env} _.
Arguments hasMkfs {env} _.
Arguments hasMkfsOnce {env} _.
Arguments ret {env A} _ _.
Arguments bind {env A B} _ _ _.
Arguments call {env R} _ _.
Arguments returned {env A} _ _.
Arguments calls {env A} _ _.
Arguments final {env A} _ _.
Arguments wp {env A} _ _ _.
Arguments defer {env A B} _ _ _.

(** ** Properties of call lists *)

(** [segment l t]: the calls of [l] are made in [t] one right after the
    other, in that order. *)
Definition segment (l t : list Event) : Prop := ∃ pre post, t = pre ++ l ++ post.

(** The error of [w.Commit] passes the test of the closure: it is nil or
    [errdefs.IsAlreadyExists] holds of it. *)
Definition commitAccepted (err : option error) : bool :=
  match err with
  | Some err => IsAlreadyExists err
  | None => true
  end.


(** ** A scripted world

    Collaborators whose answers are fixed in advance.  They serve to run the
    converter on concrete inputs. *)

Record Script := {
  look_path : string * option error;
  uncompressed : option Descriptor * option error;
  stored_info : Info * option error;
  reader_at : ReaderAt * option error;
  temp_file : File * option error;
  mkfs_erofs : list Byte.byte * option error;
  open_writer : Writer * option error;
  truncate : option error;
  copy : Z * option error;
  close_blob : option error;
  digest : string;
  commit : option error;
  close_writer : option error
}.

Definition answer (sc : Script) {R} (c : Call R) : R :=
  match c in Call R return R with
  | exec_LookPath _ => look_path sc
  | uncompress_LayerConvertFunc _ => uncompressed sc
  | cs_Info _ => stored_info sc
  | cs_ReaderAt _ => reader_at sc
  | ra_Close _ => None
  | ioutil_TempFile _ _ => temp_file sc
  | os_Remove _ => None
  | blob_Close _ => close_blob sc
  | cmd_CombinedOutput _ _ _ => mkfs_erofs sc
  | content_OpenWriter _ => open_writer sc
  | w_Truncate _ _ => truncate sc
  | io_Copy _ _ => copy sc
  | w_Digest _ => digest sc
  | w_Commit _ _ _ _ => commit sc
  | w_Close _ => close_writer sc
  end.

(** The media types of OCI and Docker layers that the scripted world knows:
    the gzip-compressed and the plain tar layer. *)
Definition scripted_IsLayerType (mt : string) : bool :=
  bool_decide (mt ∈ ["application/vnd.oci.image.layer.v1.tar";
                     "application/vnd.oci.image.layer.v1.tar+gzip";
                     "application/vnd.docker.image.rootfs.diff.tar.gzip"]).

Definition scripted_IsUncompressedType (mt : string) : bool :=
  bool_decide (mt = "application/vnd.oci.image.layer.v1.tar").

Definition scripted (sc : Script) : Collaborators :=
  {| World := unit;
     handle := λ R c w, (answer sc c, w);
     IsLayerType := scripted_IsLayerType;
     IsUncompressedType := scripted_IsUncompressedType |}.

(** The state of a process that has not asked for the builder yet. *)
Definition fresh (sc : Script) : State (scripted sc) :=
  {| world := tt : World (scripted sc); hasMkfs := false; hasMkfsOnce := false |}.

(** A gzip layer with two labels in the store, and a world in which every
    call succeeds. *)
Definition gzipLayer : Descriptor :=
  {| MediaType := "application/vnd.oci.image.layer.v1.tar+gzip";
     Digest := "sha256:aaaa"; Size := 120; URLs := ["https://example.com/l"];
     Annotations := {[ "org.example/a" := "1" ]}; Data := [];
     Platform_ := None; ArtifactType := "" |}.

Definition tarLayer : Descriptor :=
  {| MediaType := "application/vnd.oci.image.layer.v1.tar";
     Digest := "sha256:bbbb"; Size := 300; URLs := []; Annotations := ∅; Data := [];
     Platform_ := None; ArtifactType := "" |}.

Definition imageConfig : Descriptor :=
  {| MediaType := "application/vnd.oci.image.config.v1+json";
     Digest := "sha256:cccc"; Size := 40; URLs := []; Annotations := ∅; Data := [];
     Platform_ := None; ArtifactType := "" |}.

(** The labels the scripted store keeps for the gzip layer. *)
Definition storedLabels : gmap string string :=
  {[ "containerd.io/uncompressed" := "sha256:bbbb";
     "containerd.io/distribution.source.example.com" := "foo" ]}.

Definition storedInfo : Info :=
  {| info_Digest := "sha256:aaaa"; info_Size := 120; Labels := Some storedLabels |}.

(** The zero value of [content.Info], returned next to an error. *)
Definition zeroInfo : Info := {| info_Digest := ""; info_Size := 0; Labels := None |}.

(** A script from the answers that vary between the worlds below; every
    other call succeeds. *)
Definition script (look : option error) (unc : option Descriptor * option error)
    (info : Info * option error) (commit_err close_err : option error) : Script :=
  {| look_path := (match look with Some _ => "" | None => "/usr/bin/mkfs.erofs" end, look);
     uncompressed := unc;
     stored_info := info;
     reader_at := (ReaderAtHandle 1, None);
     temp_file := ({| fd := 3; Name := "/tmp/erofs-layer-123" |}, None);
     mkfs_erofs := ([], None);
     open_writer := (WriterHandle 2, None);
     truncate := None;
     copy := (4096, None);
     close_blob := None;
     digest := "sha256:eeee";
     commit := commit_err;
     close_writer := close_err |}.

Definition allFine : Script :=
  script None (Some tarLayer, None) (storedInfo, None) None None.

(** [mkfs.erofs] is not installed. *)
Definition noBuilder : Script :=
  script (Some (ErrExternal "exec: mkfs.erofs: executable file not found in $PATH"))
    (Some tarLayer, None) (storedInfo, None) None None.

(** The uncompress converter returns nil and no error. *)
Definition sameBlob : Script :=
  script None (None, None) (storedInfo, None) None None.

(** [cs.Info] fails. *)
Definition infoFails : Script :=
  script None (Some tarLayer, None) (zeroInfo, Some (ErrExternal "content sha256:aaaa: not found"))
    None None.

(** The store already holds the blob that is committed. *)
Definition commitExists : Script :=
  script None (Some tarLayer, None) (storedInfo, None) (Some ErrAlreadyExists) None.

(** As [commitExists], and closing the writer fails. *)
Definition closeFails : Script :=
  script None (Some tarLayer, None) (storedInfo, None) (Some ErrAlreadyExists)
    (Some (ErrExternal "close failed")).

(** What [LayerConvertFunc(opt...)] returns for a descriptor in a scripted
    world, in a fresh process, and the calls it makes. *)
Definition scriptedResult (sc : Script) (opt : list Option) (desc : Descriptor) :
    option Descriptor * option error :=
  returned (LayerConvertFunc (scripted sc) opt desc) (fresh sc).

Definition scriptedCalls (sc : Script) (opt : list Option) (desc : Descriptor) : list Event :=
  calls (LayerConvertFunc (scripted sc) opt desc) (fresh sc).

(** ** More properties of call lists and of option lists *)

(** The argument an option carries for each field of [options]. *)
Definition uuidArg (o : Option) : option string :=
  match o with WithUUID u => Some u | _ => None end.

Definition compressorsArg (o : Option) : option string :=
  match o with WithCompressors c => Some c | _ => None end.

Definition extraMkfsOptsArg (o : Option) : option string :=
  match o with WithExtraMkfsOption e => Some e | _ => None end.

(** The argument of the last option of a kind in a list, or the empty
    string when the list has none of that kind. *)
Definition lastArg (arg : Option → option string) (opt : list Option) : string :=
  default "" (last (omap arg opt)).


Definition is_uncompress (ev : Event) : bool :=
  match ev with EvUncompress _ _ _ => true | _ => false end.

Definition is_builder (ev : Event) : bool :=
  match ev with EvCombinedOutput _ _ _ _ _ => true | _ => false end.

Definition is_commit (ev : Event) : bool :=
  match ev with EvCommit _ _ _ _ _ => true | _ => false end.

(** ** The [convert] command of [ctr-erofs] *)

(** [errors.New]: an error with the given text that wraps nothing. *)
Definition errors_New (text : string) : error := Errorf text [].

(** What [ConvertCommand.Action] reads from its [cli.Context]: the
    positional arguments and the values of the flags. *)
Record Context := {
  Args : list string;
  flag_erofs : bool;
  flag_erofs_compressors : string;
  flag_erofs_mkfs_options : string;
  flag_uncompress : bool;
  flag_oci : bool;
  flag_platform : list string;
  flag_all_platforms : bool
}.

(** [context.Args().Get(n)]: the empty string when there is no such
    argument. *)
Definition Args_Get (context : Context) (n : nat) : string := nth n (Args context) "".

(** [platforms.MatchComparer], as far as the command builds one. *)
Inductive MatchComparer :=
| platforms_All
| platforms_Ordered (ps : list Platform)
| platforms_DefaultStrict.

(** [converter.ConvertFunc]: the two layer converters the command can
    choose, [convert.LayerConvertFunc(Opts...)] of this repository and
    [uncompress.LayerConvertFunc] of containerd. *)
Inductive ConvertFunc :=
| convert_LayerConvertFunc (Opts : list Option)
| uncompress_LayerConvertFunc_.

(** [converter.Opt]. *)
Inductive Opt :=
| WithPlatform (m : MatchComparer)
| WithDockerToOCI (v : bool)
| WithLayerConvertFunc (fn : ConvertFunc).

Inductive Client := ClientHandle (id : N).

(** [images.Image], with the fields the command reads. *)
Record Image := { image_Name : string; Target : Descriptor }.

(** The calls of the command on its host.  [cancel] and [lease_done] are
    the functions [cancel] and [done] that [commands.NewClient] and
    [client.WithLease] return. *)
Inductive CliCall : Type → Type :=
| log_Warn (msg : string) : CliCall unit
| commands_NewClient : CliCall (Client * option error)
| cancel (client : Client) : CliCall unit
| client_WithLease (client : Client) : CliCall (option error)
| lease_done (client : Client) : CliCall (option error)
| converter_Convert (client : Client) (dstRef srcRef : string) (opts : list Opt) :
    CliCall (Image * option error)
| fmt_Fprintln (a : string) : CliCall unit.

Inductive CliEvent :=
| EvWarn (msg : string)
| EvNewClient (client : Client) (err : option error)
| EvCancel (client : Client)
| EvWithLease (client : Client) (err : option error)
| EvDone (client : Client) (err : option error)
| EvConvert (client : Client) (dstRef srcRef : string) (opts : list Opt)
    (img : Image) (err : option error)
| EvFprintln (a : string).

Definition cli_event_of {R} (c : CliCall R) : R → CliEvent :=
  match c in CliCall R return R → CliEvent with
  | log_Warn msg => λ _, EvWarn msg
  | commands_NewClient => λ r, EvNewClient r.1 r.2
  | cancel client => λ _, EvCancel client
  | client_WithLease client => λ r, EvWithLease client r
  | lease_done client => λ r, EvDone client r
  | converter_Convert client dstRef srcRef opts => λ r, EvConvert client dstRef srcRef opts r.1 r.2
  | fmt_Fprintln a => λ _, EvFprintln a
  end.

Definition is_warning (ev : CliEvent) : bool :=
  match ev with EvWarn _ => true | _ => false end.

(** The host of the command: a world, what every call answers in it, and
    [platforms.Parse]. *)
Record Host := {
  HostWorld : Type;
  host_handle : ∀ R, CliCall R → HostWorld → R * HostWorld;
  platforms_Parse : string → Platform * option error
}.
Arguments host_handle _ {R} _ _.

(** The loop over [pss] in the command: it stops at the first specifier
    that does not parse. *)
Fixpoint parsePlatforms (Parse : string → Platform * option error)
    (pss : list string) (all : list Platform) : list Platform + error :=
  match pss with
  | [] => inl all
  | ps :: rest =>
      match Parse ps with
      | (_, Some err) => inr (Errorfw "invalid platform %q: %w" [FString ps] err)
      | (p, None) => parsePlatforms Parse rest (all ++ [p])
      end
  end.

Section Command.
Variable host : Host.

Definition Cmd (A : Type) : Type := HostWorld host → A * HostWorld host * list CliEvent.

Definition cli_ret {A} (a : A) : Cmd A := λ w, (a, w, []).

Definition cli_bind {A B} (m : Cmd A) (k : A → Cmd B) : Cmd B :=
  λ w, let '(a, w1, t1) := m w in
       let '(b, w2, t2) := k a w1 in
       (b, w2, t1 ++ t2).

Definition cli_call {R} (c : CliCall R) : Cmd R :=
  λ w, let '(r, w1) := host_handle host c w in (r, w1, [cli_event_of c r]).

Notation "'let*' x ':=' m 'in' k" := (cli_bind m (λ x, k))
  (at level 10, x pattern, m at level 100, k at level 200).

Definition cli_defer {A B} (f : Cmd B) (rest : Cmd A) : Cmd A :=
  let* r := rest in let* _ := f in cli_ret r.

(** [ConvertCommand.Action].  The goroutine that cancels the context on an
    interrupt is not modelled; [finalize] is never assigned, so the block
    that tests it is skipped. *)
Definition Action (context : Context) : Cmd (option error) :=
  let convertOpts : list Opt := [] in
  let srcRef := Args_Get context 0 in
  let targetRef := Args_Get context 1 in
  if String.eqb srcRef "" || String.eqb targetRef "" then
    cli_ret (Some (errors_New "src and target image need to be specified"))
  else
  match
    (if flag_all_platforms context then inl platforms_All
     else
       let pss := flag_platform context in
       if (0 <? length pss)%nat then
         match parsePlatforms (platforms_Parse host) pss [] with
         | inr err => inr err
         | inl all => inl (platforms_Ordered all)
         end
       else inl platforms_DefaultStrict)
  with
  | inr err => cli_ret (Some err)
  | inl platformMC =>
  let convertOpts := convertOpts ++ [WithPlatform platformMC] in
  let* (layerConvertFunc, stop) :=
    (if flag_erofs context then
       let Opts := [WithCompressors (flag_erofs_compressors context);
                    WithExtraMkfsOption (flag_erofs_mkfs_options context)] in
       let layerConvertFunc := Some (convert_LayerConvertFunc Opts) in
       let* _ :=
         (if negb (flag_oci context)
          then cli_call (log_Warn "option --erofs should be used in conjunction with --oci")
          else cli_ret tt) in
       if flag_uncompress context
       then cli_ret (layerConvertFunc,
                     Some (errors_New "option --erofs conflicts with --uncompress"))
       else cli_ret (layerConvertFunc, None)
     else cli_ret (None, None)) in
  match stop with Some err => cli_ret (Some err) | None =>
  let layerConvertFunc :=
    if flag_uncompress context then Some uncompress_LayerConvertFunc_ else layerConvertFunc in
  let convertOpts :=
    if flag_oci context then convertOpts ++ [WithDockerToOCI true] else convertOpts in
  let convertOpts :=
    match layerConvertFunc with
    | Some fn => convertOpts ++ [WithLayerConvertFunc fn]
    | None => convertOpts
    end in
  let* (client, err) := cli_call commands_NewClient in
  match err with Some err => cli_ret (Some err) | None =>
  cli_defer (cli_call (cancel client)) (
  let* err := cli_call (client_WithLease client) in
  match err with Some err => cli_ret (Some err) | None =>
  cli_defer (cli_call (lease_done client)) (
  let* (newImg, err) := cli_call (converter_Convert client targetRef srcRef convertOpts) in
  match err with Some err => cli_ret (Some err) | None =>
  let* _ := cli_call (fmt_Fprintln (Digest (Target newImg))) in
  cli_ret None
  end) end) end end
  end.

Definition cli_returned {A} (m : Cmd A) (w : HostWorld host) : A := (m w).1.1.
Definition cli_calls {A} (m : Cmd A) (w : HostWorld host) : list CliEvent := (m w).2.

Definition cli_wp {A} (m : Cmd A) (w : HostWorld host) (Q : A → list CliEvent → Prop) : Prop :=
  Q (cli_returned m w) (cli_calls m w).
End Command.

Arguments cli_ret {host A} _ _.
Arguments cli_bind {host A B} _ _ _.
Arguments cli_call {host R} _ _.
Arguments cli_defer {host A B} _ _ _.
Arguments cli_returned {host A} _ _.
Arguments cli_calls {host A} _ _.
Arguments cli_wp {host A} _ _ _.

(** The options that the command hands to [converter.Convert] for the flags
    of a context, given the platform matcher. *)
Definition layerOpts (context : Context) : list Opt :=
  if flag_uncompress context then [WithLayerConvertFunc uncompress_LayerConvertFunc_]
  else if flag_erofs context then
    [WithLayerConvertFunc (convert_LayerConvertFunc
       [WithCompressors (flag_erofs_compressors context);
        WithExtraMkfsOption (flag_erofs_mkfs_options context)])]
  else [].

(** ** The commands of [ctr-erofs] *)

(** [cli.Command], with the fields that [main] reads: the name and the
    subcommands; the usage line stands for the rest of the command. *)
#[warning="-register-all"] Inductive Command :=
  mkCommand { cmd_Name : string; cmd_Usage : string; cmd_Subcommands : list Command }.

(** [commands.ConvertCommand]. *)
Definition ConvertCommand : Command := mkCommand "convert" "convert an image" [].

(** [customCommands] of [main]. *)
Definition customCommands : list Command := [ConvertCommand].

(** The map [sc] that [main] fills from the custom commands: a later
    command takes the place of an earlier one of the same name. *)
Definition customMap (customs : list Command) : gmap string Command :=
  foldl (λ sc subcmd, <[cmd_Name subcmd := subcmd]> sc) ∅ customs.

(** The inner loop [for name, subcmd := range sc] for one subcommand, over
    the entries of the map in the order the range yields them.  The loop
    deletes only the entry it is at, so every entry is yielded. *)
Definition replaceOne (entries : list (string * Command)) (cur : Command)
    (sc : gmap string Command) : Command * gmap string Command :=
  foldl (λ st entry,
           if String.eqb entry.1 (cmd_Name st.1)
           then (entry.2, delete entry.1 st.2)
           else st)
        (cur, sc) entries.

(** The loop over the subcommands, from index [j] on.  [order j sc] is the
    order in which the range over [sc] yields its entries at index [j]: Go
    leaves it open. *)
Fixpoint replaceLoop (order : nat → gmap string Command → list (string * Command))
    (j : nat) (subs : list Command) (sc : gmap string Command) :
    list Command * gmap string Command :=
  match subs with
  | [] => ([], sc)
  | cur :: rest =>
      let '(cur', sc') := replaceOne (order j sc) cur sc in
      let '(rest', sc'') := replaceLoop order (S j) rest sc' in
      (cur' :: rest', sc'')
  end.

(** What [main] does to the subcommands of the [images] command: replace,
    then append what is left of the map, in the order [order'] of that
    range. *)
Definition mergeSubcommands (order : nat → gmap string Command → list (string * Command))
    (order' : gmap string Command → list (string * Command))
    (customs subs : list Command) : list Command :=
  let sc := customMap customs in
  let '(subs', sc') := replaceLoop order 0 subs sc in
  subs' ++ (order' sc').*2.

(** The loop of [main] over [app.Commands]: it changes the first command
    named "images" and stops. *)
Fixpoint registerCommands (order : nat → gmap string Command → list (string * Command))
    (order' : gmap string Command → list (string * Command))
    (customs cmds : list Command) : list Command :=
  match cmds with
  | [] => []
  | c :: rest =>
      if String.eqb (cmd_Name c) "images"
      then mkCommand (cmd_Name c) (cmd_Usage c)
             (mergeSubcommands order order' customs (cmd_Subcommands c)) :: rest
      else c :: registerCommands order order' customs rest
  end.

(** Every key of the map is the name of its command. *)
Definition keyed_by_name (sc : gmap string Command) : Prop :=
  ∀ name c, sc !! name = Some c → cmd_Name c = name.


(** ** A scripted host

    A host of the command whose answers are fixed: every call succeeds, the
    conversion yields an image whose target is the tar layer, and the parser
    knows two platforms. *)
Definition amd64 : Platform :=
  {| Architecture := "amd64"; OS := "linux"; OSVersion := ""; OSFeatures := [];
     Variant := "" |}.

Definition arm64 : Platform :=
  {| Architecture := "arm64"; OS := "linux"; OSVersion := ""; OSFeatures := [];
     Variant := "v8" |}.

Definition scripted_Parse (ps : string) : Platform * option error :=
  if String.eqb ps "linux/amd64" then (amd64, None)
  else if String.eqb ps "linux/arm64" then (arm64, None)
  else ({| Architecture := ""; OS := ""; OSVersion := ""; OSFeatures := []; Variant := "" |},
        Some (ErrExternal "invalid argument")).

Definition host_answer {R} (c : CliCall R) : R :=
  match c in CliCall R return R with
  | log_Warn _ => tt
  | commands_NewClient => (ClientHandle 1, None)
  | cancel _ => tt
  | client_WithLease _ => None
  | lease_done _ => None
  | converter_Convert _ dstRef _ _ => ({| image_Name := dstRef; Target := tarLayer |}, None)
  | fmt_Fprintln _ => tt
  end.

Definition scriptedHost : Host :=
  {| HostWorld := unit;
     host_handle := λ R c w, (host_answer c, w);
     platforms_Parse := scripted_Parse |}.

(** [ctr-erofs images convert --erofs --oci --erofs-compressors lz4hc,12
    src dst], and the same with other flags. *)
Definition erofsContext : Context :=
  {| Args := ["example.com/foo:orig"; "example.com/foo:erofs"];
     flag_erofs := true; flag_erofs_compressors := "lz4hc,12";
     flag_erofs_mkfs_options := ""; flag_uncompress := false; flag_oci := true;
     flag_platform := ["linux/amd64"; "linux/arm64"]; flag_all_platforms := false |}.

Definition conflictContext : Context :=
  {| Args := ["example.com/foo:orig"; "example.com/foo:erofs"];
     flag_erofs := true; flag_erofs_compressors := "";
     flag_erofs_mkfs_options := ""; flag_uncompress := true; flag_oci := false;
     flag_platform := []; flag_all_platforms := false |}.

Definition badPlatformContext : Context :=
  {| Args := ["example.com/foo:orig"; "example.com/foo:erofs"];
     flag_erofs := true; flag_erofs_compressors := "";
     flag_erofs_mkfs_options := ""; flag_uncompress := false; flag_oci := true;
     flag_platform := ["linux/amd64"; "plan9"; "linux/arm64"]; flag_all_platforms := false |}.

Definition allPlatformsContext : Context :=
  {| Args := ["example.com/foo:orig"; "example.com/foo:erofs"];
     flag_erofs := true; flag_erofs_compressors := "";
     flag_erofs_mkfs_options := ""; flag_uncompress := false; flag_oci := true;
     flag_platform := ["plan9"]; flag_all_platforms := true |}.

Definition oneRefContext : Context :=
  {| Args := ["example.com/foo:orig"];
     flag_erofs := true; flag_erofs_compressors := "";
     flag_erofs_mkfs_options := ""; flag_uncompress := false; flag_oci := true;
     flag_platform := []; flag_all_platforms := false |}.

(** The ranges over the map in the order of [map_to_list]. *)
Definition listOrder (j : nat) (sc : gmap string Command) : list (string * Command) :=
  map_to_list sc.

(** Commands of an application: [images] with three subcommands, one of
    them an older [convert], and [version]. *)
Definition oldConvert : Command := mkCommand "convert" "convert an image (containerd)" [].

Definition imagesCommand : Command :=
  mkCommand "images" "manage images"
    [mkCommand "pull" "pull an image" []; oldConvert; mkCommand "push" "push an image" []].

Definition versionCommand : Command := mkCommand "version" "print the version" [].

(** ** Rules for runs *)

Lemma applyOptions_ok opt opts : (applyOptions opt opts).2 = None.
Proof.
  revert opts. induction opt as [|o opt IH]; intros opts; [done|].
  destruct o; simpl; apply IH.
Qed.

(** The option loop of the closure never returns an error. *)
Lemma LayerConvertFunc_options opt :
  ∃ opts, applyOptions opt zeroOptions = (opts, None).
Proof.
  pose proof (applyOptions_ok opt zeroOptions) as Ho.
  destruct (applyOptions opt zeroOptions) as [opts oe]. simpl in Ho. subst. eauto.
Qed.

Section Rules.
Variable env : Collaborators.

Lemma returned_bind {A B} (m : M env A) (k : A → M env B) s :
  returned (bind m k) s = returned (k (returned m s)) (final m s).
Proof.
  unfold returned, final, bind.
  destruct (m s) as [[a s1] t1]; simpl. by destruct (k a s1) as [[b s2] t2].
Qed.

Lemma calls_bind {A B} (m : M env A) (k : A → M env B) s :
  calls (bind m k) s = calls m s ++ calls (k (returned m s)) (final m s).
Proof.
  unfold returned, calls, final, bind.
  destruct (m s) as [[a s1] t1]; simpl. by destruct (k a s1) as [[b s2] t2].
Qed.

Lemma returned_ret {A} (a : A) (s : State env) : returned (ret a) s = a.
Proof. done. Qed.

Lemma calls_ret {A} (a : A) (s : State env) : calls (ret a) s = [].
Proof. done. Qed.

Lemma wp_ret {A} (a : A) (s : State env) Q : Q a s [] → wp (ret a) s Q.
Proof. done. Qed.

Lemma wp_bind {A B} (m : M env A) (k : A → M env B) s Q :
  wp m s (λ a s1 t1, wp (k a) s1 (λ b s2 t2, Q b s2 (t1 ++ t2))) →
  wp (bind m k) s Q.
Proof.
  unfold wp, returned, calls, final, bind.
  destruct (m s) as [[a s1] t1]; simpl. by destruct (k a s1) as [[b s2] t2].
Qed.

(** Whatever a collaborator answers and whatever state it leaves. *)
Lemma wp_call {R} (c : Call R) (s : State env) Q :
  (∀ r s1, Q r s1 [event_of c r]) → wp (call c) s Q.
Proof.
  intros HQ. unfold wp, returned, calls, final, call.
  destruct (handle env c (world s)) as [r w]. apply HQ.
Qed.

(** The probe makes at most one call, the lookup of the executable. *)
Lemma hasMkfsErofs_calls s :
  calls (hasMkfsErofs env) s = [] ∨
  ∃ path err, calls (hasMkfsErofs env) s = [EvLookPath "mkfs.erofs" path err].
Proof.
  unfold calls, hasMkfsErofs, call.
  destruct (hasMkfsOnce s); [by left|]. right.
  destruct (handle env (exec_LookPath "mkfs.erofs") (world s)) as [[path err] w].
  exists path, err. by destruct err.
Qed.

Lemma hasMkfsErofs_no_store_op s :
  Forall (λ ev, store_op ev = false) (calls (hasMkfsErofs env) s).
Proof.
  destruct (hasMkfsErofs_calls s) as [-> | (path & err & ->)]; repeat constructor.
Qed.

Lemma wp_hasMkfsErofs (s : State env) Q :
  (∀ has s1, Q has s1 []) →
  (∀ has s1 path err, Q has s1 [EvLookPath "mkfs.erofs" path err]) →
  wp (hasMkfsErofs env) s Q.
Proof.
  intros Hnone Hone. unfold wp.
  destruct (hasMkfsErofs_calls s) as [-> | (path & err & ->)]; auto.
Qed.

(** A property of the result and of the calls of a run follows from the
    rules. *)
Lemma wp_run {A} (m : M env A) s (Q : A → list Event → Prop) :
  wp m s (λ a _ t, Q a t) → Q (returned m s) (calls m s).
Proof. done. Qed.
End Rules.

(** One step of a run by the rules above. *)
Ltac wp_step :=
  lazymatch goal with
  | |- wp (ret _) _ _ => apply wp_ret
  | |- wp (bind _ _) _ _ => apply wp_bind
  | |- wp (call _) _ _ => apply wp_call; intros ? ?
  | |- wp (hasMkfsErofs _) _ _ => apply wp_hasMkfsErofs; intros
  | |- wp (defer _ _) _ _ => unfold defer at 1
  | |- wp (convertTarErofs _ _ _ _) _ _ => unfold convertTarErofs at 1
  | |- wp (match ?x with _ => _ end) _ _ => destruct x eqn:?
  | |- wp _ _ _ => progress cbv beta zeta
  end.

(** Open the closure on an option list and run it to every return; at a
    return, show the calls as a plain list. *)
Ltac wp_closure opt :=
  let opts := fresh "opts" in
  let Hopts := fresh "Hopts" in
  unfold LayerConvertFunc;
  destruct (LayerConvertFunc_options opt) as [opts Hopts]; rewrite Hopts;
  repeat wp_step;
  cbn [app event_of fst snd].

(** ** Segments of call lists *)

Lemma segment_here l t : l `prefix_of` t → segment l t.
Proof. intros [post ->]. by exists [], post. Qed.

Lemma segment_later l z t : segment l t → segment l (z :: t).
Proof. intros (pre & post & ->). by exists (z :: pre), post. Qed.

Lemma segment_nil_inv a l : ¬ segment (a :: l) [].
Proof. intros (pre & post & H). by destruct pre. Qed.

Lemma segment2_cons_inv a b z t :
  segment [a; b] (z :: t) → (a = z ∧ ∃ t', t = b :: t') ∨ segment [a; b] t.
Proof.
  intros (pre & post & H). destruct pre as [|z' pre]; simpl in H.
  - left. injection H as -> ->. eauto.
  - right. injection H as -> ->. by exists pre, post.
Qed.


Lemma segment_at k l t : take (length l) (drop k t) = l → segment l t.
Proof.
  intros H. exists (take k t), (drop (length l) (drop k t)).
  rewrite <- (take_drop k t) at 1. f_equal.
  rewrite <- (take_drop (length l) (drop k t)) at 1. by rewrite H.
Qed.

(** Find a segment in a plain list. *)
Ltac solve_segment :=
  solve [ repeat first
            [ by (apply segment_here; repeat first [apply prefix_nil | apply prefix_cons])
            | apply segment_later ] ].

(** Find a suffix of a plain list. *)
Ltac solve_suffix :=
  solve [ repeat first [ by exists [] | apply suffix_cons_r ] ].

(** Use a two-call segment of a plain list: one case for every place where
    the first call can stand. *)
Ltac invert_segment H :=
  repeat (apply segment2_cons_inv in H as [[? [? ?]] | H]; [simplify_eq|]);
  try (by apply segment_nil_inv in H).

(** Use the membership of a call in a plain list. *)
Ltac invert_In H :=
  cbn [In] in H; destruct_or?; simplify_eq.


Section Gates.
Variable env : Collaborators.

(** C4. When the availability probe returns false, the closure returns
    [errdefs.ErrNotImplemented] for every option list and every descriptor,
    and the only call it has made by then is the probe's own lookup of the
    executable: no call on the content store. *)
Theorem capability_gate opt desc s :
  returned (hasMkfsErofs env) s = false →
  returned (LayerConvertFunc env opt desc) s = (None, Some ErrNotImplemented) ∧
  calls (LayerConvertFunc env opt desc) s = calls (hasMkfsErofs env) s ∧
  Forall (λ ev, store_op ev = false) (calls (LayerConvertFunc env opt desc) s).
Proof.
  intros Hprobe. unfold LayerConvertFunc.
  destruct (LayerConvertFunc_options opt) as [opts ->].
  rewrite returned_bind, calls_bind, Hprobe. simpl.
  rewrite returned_ret, calls_ret, app_nil_r.
  split_and!; [done..|]. apply hasMkfsErofs_no_store_op.
Qed.

(** C5, amended. When the availability probe returns true and the media
    type of the descriptor is not a layer type, the closure returns
    [(nil, nil)] and has made no call on the content store, so no write. *)
Theorem passthrough_non_layer opt desc s :
  returned (hasMkfsErofs env) s = true →
  IsLayerType env (MediaType desc) = false →
  returned (LayerConvertFunc env opt desc) s = (None, None) ∧
  Forall (λ ev, store_op ev = false) (calls (LayerConvertFunc env opt desc) s) ∧
  Forall (λ ev, store_write ev = false) (calls (LayerConvertFunc env opt desc) s).
Proof.
  intros Hprobe Hmt. unfold LayerConvertFunc.
  destruct (LayerConvertFunc_options opt) as [opts ->].
  rewrite returned_bind, calls_bind, Hprobe, Hmt. simpl.
  rewrite returned_ret, calls_ret, app_nil_r.
  split_and!; [done|apply hasMkfsErofs_no_store_op|].
  eapply Forall_impl; [apply hasMkfsErofs_no_store_op|].
  by intros [].
Qed.
End Gates.

(** The test the closure makes on the error of [w.Commit] is the negation
    of [commitAccepted]. *)
Lemma commitAccepted_test err :
  match err with Some err => negb (IsAlreadyExists err) | None => false end =
  negb (commitAccepted err).
Proof. by destruct err. Qed.

Ltac clean_tests :=
  repeat match goal with
    | H : context [match _ with Some err => negb (IsAlreadyExists err) | None => false end] |- _ =>
        rewrite commitAccepted_test in H
    | H : negb _ = false |- _ => apply negb_false_iff in H
    | H : negb _ = true |- _ => apply negb_true_iff in H
    end.

Section Pipeline.
Variable env : Collaborators.

(** C7. Whenever the uncompress converter is called and returns a nil
    descriptor with a nil error, the closure returns the error made from
    "unexpectedly got the same blob after compression (%s, %q)" with the
    digest and media type of its argument, and that call is the last one
    of the run.  The converter is called on the argument of the closure,
    and only for a layer type that is not an uncompressed type. *)
Theorem same_blob_detection opt desc s d :
  In (EvUncompress d None None) (calls (LayerConvertFunc env opt desc) s) →
  returned (LayerConvertFunc env opt desc) s =
    (None, Some (Errorf "unexpectedly got the same blob after compression (%s, %q)"
                   [FString (Digest desc); FString (MediaType desc)])) ∧
  d = desc ∧
  IsLayerType env (MediaType desc) = true ∧
  IsUncompressedType env (MediaType desc) = false ∧
  [EvUncompress desc None None] `suffix_of` calls (LayerConvertFunc env opt desc) s.
Proof.
  apply (wp_run env _ _ (λ res evs,
    In (EvUncompress d None None) evs →
    res = _ ∧ d = desc ∧ _ = true ∧ _ = false ∧ [EvUncompress desc None None] `suffix_of` evs)).
  wp_closure opt; intros Hin; invert_In Hin.
  all: clean_tests; split_and!; try done; solve_suffix.
Qed.



(** C1, amended. When a run reaches [w.Commit], the error of the commit is
    nil or an already-exists error, and the [w.Close()] that follows
    returns nil, the closure returns no error and a descriptor that is the
    original one with the media type "application/vnd.erofs", the digest
    that [w.Digest()] returns after the close, and as size the number of
    bytes that [io.Copy] copied from the temporary file into the writer. *)
Theorem commit_accepted_descriptor opt desc s w n expected labels cerr w' :
  segment [EvCommit w n expected labels cerr; EvWriterClose w' None]
    (calls (LayerConvertFunc env opt desc) s) →
  commitAccepted cerr = true →
  ∃ src dgst,
    In (EvTempFile "" "erofs-layer-" src None) (calls (LayerConvertFunc env opt desc) s) ∧
    In (EvCopy w src n None) (calls (LayerConvertFunc env opt desc) s) ∧
    segment [EvCommit w n expected labels cerr; EvWriterClose w None; EvDigest w dgst]
      (calls (LayerConvertFunc env opt desc) s) ∧
    returned (LayerConvertFunc env opt desc) s =
      (Some {| MediaType := "application/vnd.erofs"; Digest := dgst; Size := n;
               URLs := URLs desc; Annotations := Annotations desc; Data := Data desc;
               Platform_ := Platform_ desc; ArtifactType := ArtifactType desc |}, None).
Proof.
  intros Hseg Hacc. revert Hseg.
  apply (wp_run env _ _ (λ res evs,
    segment [_; _] evs →
    ∃ src dgst, In (EvTempFile "" "erofs-layer-" src None) evs ∧ In (EvCopy w src n None) evs ∧
      segment [_; _; EvDigest w dgst] evs ∧ res = (Some _, None))).
  wp_closure opt; intros Hseg; invert_segment Hseg; clean_tests.
  all: try (rewrite Hacc in *; discriminate).
  all: do 2 eexists; split_and!; [cbn [In]; auto 20 | cbn [In]; auto 20 | solve_segment | done].
Qed.

(** C10. When a run reaches [w.Commit], the error of the commit is nil or
    an already-exists error, and the [w.Close()] that follows returns an
    error, the closure returns a nil descriptor and that error.  The commit
    stays: the calls that come after are the deferred ones, which close the
    writer, close and remove the temporary file and close the reader. *)
Theorem close_error_after_commit opt desc s w n expected labels cerr w' e :
  segment [EvCommit w n expected labels cerr; EvWriterClose w' (Some e)]
    (calls (LayerConvertFunc env opt desc) s) →
  commitAccepted cerr = true →
  returned (LayerConvertFunc env opt desc) s = (None, Some e) ∧
  ∃ blob ra e1 e2 e3 e4,
    [EvCommit w n expected labels cerr; EvWriterClose w (Some e);
     EvWriterClose w e1; EvBlobClose blob e2; EvRemove (Name blob) e3; EvRaClose ra e4]
    `suffix_of` calls (LayerConvertFunc env opt desc) s.
Proof.
  intros Hseg Hacc. revert Hseg.
  apply (wp_run env _ _ (λ res evs,
    segment [_; _] evs →
    res = (None, Some e) ∧
    ∃ blob ra e1 e2 e3 e4, [_; _; EvWriterClose w e1; EvBlobClose blob e2;
                             EvRemove (Name blob) e3; EvRaClose ra e4] `suffix_of` evs)).
  wp_closure opt; intros Hseg; invert_segment Hseg; clean_tests.
  all: try (rewrite Hacc in *; discriminate).
  all: split; [done | do 6 eexists; solve_suffix].
Qed.

(** X14. The errors of the other calls on the store are returned as they are:
    those of the uncompress converter, of [cs.ReaderAt], of
    [content.OpenWriter], of [w.Truncate], of [io.Copy] and, unless it is
    an already-exists error, of [w.Commit]. *)
Lemma store_errors_returned opt desc s e :
  let evs := calls (LayerConvertFunc env opt desc) s in
  let res := returned (LayerConvertFunc env opt desc) s in
  (∀ d u, In (EvUncompress d u (Some e)) evs → res = (None, Some e)) ∧
  (∀ d ra, In (EvReaderAt d ra (Some e)) evs → res = (None, Some e)) ∧
  (∀ r w, In (EvOpenWriter r w (Some e)) evs → res = (None, Some e)) ∧
  (∀ w size, In (EvTruncate w size (Some e)) evs → res = (None, Some e)) ∧
  (∀ w src n, In (EvCopy w src n (Some e)) evs → res = (None, Some e)) ∧
  (∀ w n x labels, In (EvCommit w n x labels (Some e)) evs →
     IsAlreadyExists e = false → res = (None, Some e)).
Proof.
  cbv zeta.
  apply (wp_run env _ _ (λ res evs,
    (∀ d u, In (EvUncompress d u (Some e)) evs → res = (None, Some e)) ∧
    (∀ d ra, In (EvReaderAt d ra (Some e)) evs → res = (None, Some e)) ∧
    (∀ r w, In (EvOpenWriter r w (Some e)) evs → res = (None, Some e)) ∧
    (∀ w size, In (EvTruncate w size (Some e)) evs → res = (None, Some e)) ∧
    (∀ w src n, In (EvCopy w src n (Some e)) evs → res = (None, Some e)) ∧
    (∀ w n x labels, In (EvCommit w n x labels (Some e)) evs →
       IsAlreadyExists e = false → res = (None, Some e)))).
  wp_closure opt; split_and!; intros * Hin; invert_In Hin; try done.
  all: intros Hexists; clean_tests; simpl in *; congruence.
Qed.
End Pipeline.

(** ** The flags of the builder *)

(** C2. For the options with no UUID, the compressors "deflate,9" and the
    extra option "-Efoo", the list of extra flags is "-U", the default UUID,
    "-z", "deflate,9", "-C", "65536", "-Efoo", in that order; and whenever
    the closure runs the builder with these options, it runs "mkfs.erofs"
    with "--tar=f", "--aufs", "--quiet", then these flags, then the name of
    the temporary file as the last argument. *)
Theorem flag_ordering :
  let opts := {| uuid := ""; compressors := "deflate,9"; extraMkfsOpts := "-Efoo" |} in
  let extra := ["-U"; "fead9a88-fd26-578a-a655-9cbddcb89e76"; "-z"; "deflate,9";
                "-C"; "65536"; "-Efoo"] in
  mkfsExtraOpts opts = extra ∧
  ∀ env opt desc s name args stdin out err,
    (applyOptions opt zeroOptions).1 = opts →
    In (EvCombinedOutput name args stdin out err) (calls (LayerConvertFunc env opt desc) s) →
    name = "mkfs.erofs" ∧
    ∃ blob,
      In (EvTempFile "" "erofs-layer-" blob None) (calls (LayerConvertFunc env opt desc) s) ∧
      args = ["--tar=f"; "--aufs"; "--quiet"] ++ extra ++ [Name blob].
Proof.
  cbv zeta. split; [done|].
  intros env opt desc s name args stdin out err Hopt.
  apply (wp_run env _ _ (λ res evs,
    In (EvCombinedOutput name args stdin out err) evs →
    name = "mkfs.erofs" ∧ ∃ blob, In (EvTempFile "" "erofs-layer-" blob None) evs ∧ args = _)).
  wp_closure opt; intros Hin; invert_In Hin.
  all: rewrite Hopts in Hopt; cbn [fst] in Hopt; subst opts.
  all: split; [done | eexists; split; [cbn [In]; auto 20 | done]].
Qed.

(** The run of the gzip layer with [WithCompressors("deflate,9")] and
    [WithExtraMkfsOption("-Efoo")]. *)
Lemma flag_ordering_witness :
  (applyOptions [WithCompressors "deflate,9"; WithExtraMkfsOption "-Efoo"] zeroOptions).1 =
    {| uuid := ""; compressors := "deflate,9"; extraMkfsOpts := "-Efoo" |} ∧
  In (EvCombinedOutput "mkfs.erofs"
        ["--tar=f"; "--aufs"; "--quiet"; "-U"; "fead9a88-fd26-578a-a655-9cbddcb89e76";
         "-z"; "deflate,9"; "-C"; "65536"; "-Efoo"; "/tmp/erofs-layer-123"]
        (NewSectionReader (ReaderAtHandle 1) 0 300) [] None)
     (scriptedCalls allFine [WithCompressors "deflate,9"; WithExtraMkfsOption "-Efoo"] gzipLayer) ∧
  ∃ blob,
    In (EvTempFile "" "erofs-layer-" blob None)
       (scriptedCalls allFine [WithCompressors "deflate,9"; WithExtraMkfsOption "-Efoo"] gzipLayer) ∧
    ["--tar=f"; "--aufs"; "--quiet"; "-U"; "fead9a88-fd26-578a-a655-9cbddcb89e76";
     "-z"; "deflate,9"; "-C"; "65536"; "-Efoo"; "/tmp/erofs-layer-123"] =
    ["--tar=f"; "--aufs"; "--quiet"] ++
    ["-U"; "fead9a88-fd26-578a-a655-9cbddcb89e76"; "-z"; "deflate,9"; "-C"; "65536"; "-Efoo"] ++
    [Name blob].
Proof.
  assert (Hopt : (applyOptions [WithCompressors "deflate,9"; WithExtraMkfsOption "-Efoo"]
                    zeroOptions).1 =
                 {| uuid := ""; compressors := "deflate,9"; extraMkfsOpts := "-Efoo" |})
    by reflexivity.
  assert (Hin : In (EvCombinedOutput "mkfs.erofs"
        ["--tar=f"; "--aufs"; "--quiet"; "-U"; "fead9a88-fd26-578a-a655-9cbddcb89e76";
         "-z"; "deflate,9"; "-C"; "65536"; "-Efoo"; "/tmp/erofs-layer-123"]
        (NewSectionReader (ReaderAtHandle 1) 0 300) [] None)
     (scriptedCalls allFine [WithCompressors "deflate,9"; WithExtraMkfsOption "-Efoo"] gzipLayer)).
  { vm_compute. do 5 right. left. reflexivity. }
  split; [exact Hopt|]. split; [exact Hin|].
  exact (proj2 (proj2 flag_ordering _ _ _ _ _ _ _ _ _ Hopt Hin)).
Defined.

(** The first flag of the list when no UUID is given, and when one is. *)
Lemma mkfsExtraOpts_default_uuid opts :
  uuid opts = "" →
  ∃ rest, mkfsExtraOpts opts = "-U" :: "fead9a88-fd26-578a-a655-9cbddcb89e76" :: rest.
Proof.
  intros Hu. unfold mkfsExtraOpts. rewrite Hu. cbn [String.eqb negb app].
  destruct (negb (compressors opts =? "")%string), (negb (extraMkfsOpts opts =? "")%string);
    cbn [app]; eauto.
Qed.

Lemma mkfsExtraOpts_given_uuid opts :
  uuid opts ≠ "" → ∃ rest, mkfsExtraOpts opts = uuid opts :: rest.
Proof.
  intros Hu. unfold mkfsExtraOpts.
  apply String.eqb_neq in Hu. rewrite Hu. cbn [negb app].
  destruct (negb (compressors opts =? "")%string), (negb (extraMkfsOpts opts =? "")%string);
    cbn [app]; eauto.
Qed.

(** C3, at a UUID that is given. With [WithUUID] the list of extra flags is
    the identifier alone, without "-U" before it, and [mkfs.erofs] is run
    with the identifier as a bare argument. *)
Theorem uuid_flag_missing :
  let id := "6ba7b810-9dad-11d1-80b4-00c04fd430c8" in
  mkfsExtraOpts (applyOptions [WithUUID id] zeroOptions).1 = [id] ∧
  In (EvCombinedOutput "mkfs.erofs"
        ["--tar=f"; "--aufs"; "--quiet"; id; "/tmp/erofs-layer-123"]
        (NewSectionReader (ReaderAtHandle 1) 0 300) [] None)
     (scriptedCalls allFine [WithUUID id] gzipLayer).
Proof. cbv zeta. split; [reflexivity|]. vm_compute. do 5 right. left. reflexivity. Qed.

(** ** Runs in the scripted world *)

(** A plain tar layer in a world where every call succeeds: the calls of the
    run, with the deferred ones at the end, and the descriptor returned. *)
Example convert_tar_layer_calls :
  scriptedCalls allFine [] tarLayer =
    [EvLookPath "mkfs.erofs" "/usr/bin/mkfs.erofs" None;
     EvInfo "sha256:bbbb" storedInfo None;
     EvReaderAt tarLayer (ReaderAtHandle 1) None;
     EvTempFile "" "erofs-layer-" {| fd := 3; Name := "/tmp/erofs-layer-123" |} None;
     EvCombinedOutput "mkfs.erofs"
       ["--tar=f"; "--aufs"; "--quiet"; "-U"; "fead9a88-fd26-578a-a655-9cbddcb89e76";
        "/tmp/erofs-layer-123"]
       (NewSectionReader (ReaderAtHandle 1) 0 300) [] None;
     EvOpenWriter "convert-erofs-from-sha256:bbbb" (WriterHandle 2) None;
     EvTruncate (WriterHandle 2) 0 None;
     EvCopy (WriterHandle 2) {| fd := 3; Name := "/tmp/erofs-layer-123" |} 4096 None;
     EvBlobClose {| fd := 3; Name := "/tmp/erofs-layer-123" |} None;
     EvDigest (WriterHandle 2) "sha256:eeee";
     EvCommit (WriterHandle 2) 4096 "" (<[LabelUncompressed := "sha256:eeee"]> storedLabels) None;
     EvWriterClose (WriterHandle 2) None;
     EvDigest (WriterHandle 2) "sha256:eeee";
     EvWriterClose (WriterHandle 2) None;
     EvBlobClose {| fd := 3; Name := "/tmp/erofs-layer-123" |} None;
     EvRemove "/tmp/erofs-layer-123" None;
     EvRaClose (ReaderAtHandle 1) None].
Proof. vm_compute. reflexivity. Qed.

Example convert_tar_layer_result :
  scriptedResult allFine [] tarLayer =
    (Some {| MediaType := "application/vnd.erofs"; Digest := "sha256:eeee"; Size := 4096;
             URLs := []; Annotations := ∅; Data := []; Platform_ := None;
             ArtifactType := "" |}, None).
Proof. vm_compute. reflexivity. Qed.

(** C9, at a store whose [Info] fails. The error that [cs.Info] returns is
    dropped: the run goes on, commits with the one label it sets itself and
    returns a descriptor and no error. *)
Theorem info_error_dropped :
  In (EvInfo "sha256:aaaa" zeroInfo (Some (ErrExternal "content sha256:aaaa: not found")))
     (scriptedCalls infoFails [] gzipLayer) ∧
  In (EvCommit (WriterHandle 2) 4096 "" {[ LabelUncompressed := "sha256:eeee" ]} None)
     (scriptedCalls infoFails [] gzipLayer) ∧
  scriptedResult infoFails [] gzipLayer =
    (Some {| MediaType := "application/vnd.erofs"; Digest := "sha256:eeee"; Size := 4096;
             URLs := URLs gzipLayer; Annotations := Annotations gzipLayer;
             Data := Data gzipLayer; Platform_ := Platform_ gzipLayer;
             ArtifactType := ArtifactType gzipLayer |}, None).
Proof.
  split_and!.
  - vm_compute. do 2 right. left. reflexivity.
  - vm_compute. do 11 right. left. reflexivity.
  - vm_compute. reflexivity.
Qed.

(** C1 without the condition on [w.Close()]: the commit of this run returns
    an already-exists error, the close after it fails, and the closure
    returns that error and no descriptor. *)
Lemma commit_accepted_close_fails :
  In (EvCommit (WriterHandle 2) 4096 "" (<[LabelUncompressed := "sha256:eeee"]> storedLabels)
        (Some ErrAlreadyExists))
     (scriptedCalls closeFails [] gzipLayer) ∧
  IsAlreadyExists ErrAlreadyExists = true ∧
  scriptedResult closeFails [] gzipLayer = (None, Some (ErrExternal "close failed")) ∧
  ¬ ∃ newDesc, scriptedResult closeFails [] gzipLayer = (Some newDesc, None).
Proof.
  split_and!.
  - vm_compute. do 11 right. left. reflexivity.
  - reflexivity.
  - vm_compute. reflexivity.
  - assert (E : scriptedResult closeFails [] gzipLayer =
                 (None, Some (ErrExternal "close failed"))) by (vm_compute; reflexivity).
    intros [newDesc H]. rewrite E in H. discriminate H.
Qed.

(** C5 without the condition on the probe: the media type of an image
    config is not a layer type, and where [mkfs.erofs] is missing the
    closure returns [ErrNotImplemented] for it, not [(nil, nil)]. *)
Lemma passthrough_builder_missing :
  IsLayerType (scripted noBuilder) (MediaType imageConfig) = false ∧
  scriptedResult noBuilder [] imageConfig = (None, Some ErrNotImplemented) ∧
  scriptedResult noBuilder [] imageConfig ≠ (None, None).
Proof.
  assert (E : scriptedResult noBuilder [] imageConfig = (None, Some ErrNotImplemented))
    by (vm_compute; reflexivity).
  split_and!; [reflexivity | exact E |].
  rewrite E. discriminate.
Qed.

(** The gate at work where [mkfs.erofs] is missing. *)
Lemma capability_gate_witness :
  returned (hasMkfsErofs (scripted noBuilder)) (fresh noBuilder) = false ∧
  returned (LayerConvertFunc (scripted noBuilder) [WithCompressors "lz4hc"] gzipLayer)
    (fresh noBuilder) = (None, Some ErrNotImplemented).
Proof.
  assert (H : returned (hasMkfsErofs (scripted noBuilder)) (fresh noBuilder) = false)
    by reflexivity.
  exact (conj H (proj1 (capability_gate (scripted noBuilder) [WithCompressors "lz4hc"]
                          gzipLayer (fresh noBuilder) H))).
Defined.

(** An image config passes through where [mkfs.erofs] is installed. *)
Lemma passthrough_non_layer_witness :
  returned (hasMkfsErofs (scripted allFine)) (fresh allFine) = true ∧
  IsLayerType (scripted allFine) (MediaType imageConfig) = false ∧
  returned (LayerConvertFunc (scripted allFine) [] imageConfig) (fresh allFine) = (None, None).
Proof.
  assert (H1 : returned (hasMkfsErofs (scripted allFine)) (fresh allFine) = true)
    by reflexivity.
  assert (H2 : IsLayerType (scripted allFine) (MediaType imageConfig) = false)
    by reflexivity.
  exact (conj H1 (conj H2 (proj1 (passthrough_non_layer (scripted allFine) [] imageConfig
                                    (fresh allFine) H1 H2)))).
Defined.

(** The gzip layer where the uncompress converter returns nil. *)
Lemma same_blob_detection_witness :
  In (EvUncompress gzipLayer None None)
     (calls (LayerConvertFunc (scripted sameBlob) [] gzipLayer) (fresh sameBlob)) ∧
  returned (LayerConvertFunc (scripted sameBlob) [] gzipLayer) (fresh sameBlob) =
    (None, Some (Errorf "unexpectedly got the same blob after compression (%s, %q)"
                   [FString "sha256:aaaa";
                    FString "application/vnd.oci.image.layer.v1.tar+gzip"])).
Proof.
  assert (H : In (EvUncompress gzipLayer None None)
                (calls (LayerConvertFunc (scripted sameBlob) [] gzipLayer) (fresh sameBlob))).
  { vm_compute. right. left. reflexivity. }
  exact (conj H (proj1 (same_blob_detection (scripted sameBlob) [] gzipLayer
                          (fresh sameBlob) gzipLayer H))).
Defined.


(** The gzip layer where the store already holds the committed blob. *)
Lemma commit_accepted_descriptor_witness :
  segment [EvCommit (WriterHandle 2) 4096 ""
             (<[LabelUncompressed := "sha256:eeee"]> storedLabels) (Some ErrAlreadyExists);
           EvWriterClose (WriterHandle 2) None]
    (calls (LayerConvertFunc (scripted commitExists) [] gzipLayer) (fresh commitExists)) ∧
  commitAccepted (Some ErrAlreadyExists) = true ∧
  ∃ dgst,
    returned (LayerConvertFunc (scripted commitExists) [] gzipLayer) (fresh commitExists) =
      (Some {| MediaType := "application/vnd.erofs"; Digest := dgst; Size := 4096;
               URLs := URLs gzipLayer; Annotations := Annotations gzipLayer;
               Data := Data gzipLayer; Platform_ := Platform_ gzipLayer;
               ArtifactType := ArtifactType gzipLayer |}, None).
Proof.
  assert (H1 : segment [EvCommit (WriterHandle 2) 4096 ""
             (<[LabelUncompressed := "sha256:eeee"]> storedLabels) (Some ErrAlreadyExists);
           EvWriterClose (WriterHandle 2) None]
    (calls (LayerConvertFunc (scripted commitExists) [] gzipLayer) (fresh commitExists))).
  { apply (segment_at 11). vm_compute. reflexivity. }
  assert (H2 : commitAccepted (Some ErrAlreadyExists) = true) by reflexivity.
  split; [exact H1|]. split; [exact H2|].
  destruct (commit_accepted_descriptor (scripted commitExists) [] gzipLayer (fresh commitExists)
              _ _ _ _ _ _ H1 H2) as (src & dgst & _ & _ & _ & Hret).
  exists dgst. exact Hret.
Defined.

(** The gzip layer where the store already holds the committed blob and
    closing the writer fails. *)
Lemma close_error_after_commit_witness :
  segment [EvCommit (WriterHandle 2) 4096 ""
             (<[LabelUncompressed := "sha256:eeee"]> storedLabels) (Some ErrAlreadyExists);
           EvWriterClose (WriterHandle 2) (Some (ErrExternal "close failed"))]
    (calls (LayerConvertFunc (scripted closeFails) [] gzipLayer) (fresh closeFails)) ∧
  commitAccepted (Some ErrAlreadyExists) = true ∧
  returned (LayerConvertFunc (scripted closeFails) [] gzipLayer) (fresh closeFails) =
    (None, Some (ErrExternal "close failed")).
Proof.
  assert (H1 : segment [EvCommit (WriterHandle 2) 4096 ""
             (<[LabelUncompressed := "sha256:eeee"]> storedLabels) (Some ErrAlreadyExists);
           EvWriterClose (WriterHandle 2) (Some (ErrExternal "close failed"))]
    (calls (LayerConvertFunc (scripted closeFails) [] gzipLayer) (fresh closeFails))).
  { apply (segment_at 11). vm_compute. reflexivity. }
  assert (H2 : commitAccepted (Some ErrAlreadyExists) = true) by reflexivity.
  exact (conj H1 (conj H2 (proj1 (close_error_after_commit (scripted closeFails) [] gzipLayer
                                    (fresh closeFails) _ _ _ _ _ _ _ H1 H2)))).
Defined.


(** ** Options and the probe *)

Lemma default_last_cons {A} (d x : A) l : default d (last (x :: l)) = default x (last l).
Proof. rewrite last_cons. by destruct (last l). Qed.

Lemma applyOptions_from opt opts :
  applyOptions opt opts =
    ({| uuid := default (uuid opts) (last (omap uuidArg opt));
        compressors := default (compressors opts) (last (omap compressorsArg opt));
        extraMkfsOpts := default (extraMkfsOpts opts) (last (omap extraMkfsOptsArg opt)) |},
     None).
Proof.
  revert opts. induction opt as [|o opt IH]; intros opts.
  - by destruct opts.
  - destruct o as [c|u|e]; cbn [applyOptions applyOption]; rewrite IH; simpl;
      by rewrite default_last_cons.
Qed.

(** X1. The options struct that the closure builds holds, in each field, the
    argument of the last option of that kind in the list, and the empty
    string when there is none: options of different kinds do not touch each
    other's field, and the loop never fails. *)
Theorem options_last_wins opt :
  applyOptions opt zeroOptions =
    ({| uuid := lastArg uuidArg opt;
        compressors := lastArg compressorsArg opt;
        extraMkfsOpts := lastArg extraMkfsOptsArg opt |}, None).
Proof. apply applyOptions_from. Qed.

(** X2. Two option lists that agree on the last argument of each kind give
    the same closure, in every world: the order of options of different
    kinds and the options that a later one of the same kind overrides do not
    matter. *)
Theorem options_order_irrelevant env opt1 opt2 desc :
  lastArg uuidArg opt1 = lastArg uuidArg opt2 →
  lastArg compressorsArg opt1 = lastArg compressorsArg opt2 →
  lastArg extraMkfsOptsArg opt1 = lastArg extraMkfsOptsArg opt2 →
  LayerConvertFunc env opt1 desc = LayerConvertFunc env opt2 desc.
Proof.
  unfold lastArg. intros Hu Hc He. unfold LayerConvertFunc.
  rewrite !applyOptions_from. simpl. by rewrite Hu, Hc, He.
Qed.

(** Four options in one order and three in another, with the same last arguments. *)
Lemma options_order_irrelevant_witness :
  LayerConvertFunc (scripted allFine)
    [WithUUID "a"; WithCompressors "lz4"; WithUUID "b"; WithExtraMkfsOption "-Ededupe"] gzipLayer =
  LayerConvertFunc (scripted allFine)
    [WithExtraMkfsOption "-Ededupe"; WithUUID "b"; WithCompressors "lz4"] gzipLayer.
Proof.
  apply (options_order_irrelevant (scripted allFine)
           [WithUUID "a"; WithCompressors "lz4"; WithUUID "b"; WithExtraMkfsOption "-Ededupe"]
           [WithExtraMkfsOption "-Ededupe"; WithUUID "b"; WithCompressors "lz4"] gzipLayer);
    reflexivity.
Defined.



Section Probe.
Variable env : Collaborators.

(** X4. After a call of the probe, the once-flag is set, and a further call
    returns the same answer, makes no call at all and leaves the state as it
    is. *)
Theorem hasMkfsErofs_memoized s :
  let s1 := final (hasMkfsErofs env) s in
  hasMkfsOnce s1 = true ∧
  returned (hasMkfsErofs env) s1 = returned (hasMkfsErofs env) s ∧
  calls (hasMkfsErofs env) s1 = [] ∧
  final (hasMkfsErofs env) s1 = s1.
Proof.
  unfold final, returned, calls, hasMkfsErofs, call.
  destruct s as [w has once]; cbn [hasMkfsOnce hasMkfs world].
  destruct once; cbn; [done|].
  destruct (handle env (exec_LookPath "mkfs.erofs") w) as [[path [e|]] w1]; cbn; done.
Qed.

(** X5. In a process that has not asked yet (the once-flag is not set and
    [hasMkfs] has its initial value false), the probe looks up "mkfs.erofs"
    exactly once and answers true exactly when the lookup returns no error. *)
Theorem hasMkfsErofs_first_call s :
  hasMkfsOnce s = false →
  hasMkfs s = false →
  ∃ path err,
    (handle env (exec_LookPath "mkfs.erofs") (world s)).1 = (path, err) ∧
    calls (hasMkfsErofs env) s = [EvLookPath "mkfs.erofs" path err] ∧
    (returned (hasMkfsErofs env) s = true ↔ err = None).
Proof.
  intros Honce Hhas. unfold returned, calls, hasMkfsErofs, call. rewrite Honce.
  destruct (handle env (exec_LookPath "mkfs.erofs") (world s)) as [[path [e|]] w1];
    cbn; eexists _, _; split_and!; try done.
  rewrite Hhas. split; intros; discriminate.
Qed.
End Probe.

(** The first call of the probe where [mkfs.erofs] is missing. *)
Lemma hasMkfsErofs_first_call_witness :
  hasMkfsOnce (fresh noBuilder) = false ∧
  hasMkfs (fresh noBuilder) = false ∧
  returned (hasMkfsErofs (scripted noBuilder)) (fresh noBuilder) = false.
Proof.
  assert (H1 : hasMkfsOnce (fresh noBuilder) = false) by reflexivity.
  assert (H2 : hasMkfs (fresh noBuilder) = false) by reflexivity.
  split; [exact H1|]. split; [exact H2|].
  destruct (hasMkfsErofs_first_call (scripted noBuilder) (fresh noBuilder) H1 H2)
    as (path & err & Hh & _ & Hiff).
  destruct (returned (hasMkfsErofs (scripted noBuilder)) (fresh noBuilder)); [|reflexivity].
  destruct Hiff as [Hiff _]. specialize (Hiff eq_refl). subst err.
  vm_compute in Hh. discriminate Hh.
Defined.

(** ** The package-level variables across runs *)

Section Frame.
Variable env : Collaborators.

(** A call to a collaborator leaves the two package-level variables as they
    are. *)
Lemma wp_call_frame {R} (c : Call R) (s : State env) Q :
  (∀ r s1, hasMkfs s1 = hasMkfs s → hasMkfsOnce s1 = hasMkfsOnce s →
           Q r s1 [event_of c r]) →
  wp (call c) s Q.
Proof.
  intros HQ. unfold wp, returned, calls, final, call.
  destruct (handle env c (world s)) as [r w]. by apply HQ.
Qed.

Lemma hasMkfsErofs_final s :
  hasMkfsOnce (final (hasMkfsErofs env) s) = true ∧
  hasMkfs (final (hasMkfsErofs env) s) = returned (hasMkfsErofs env) s.
Proof.
  unfold final, returned, hasMkfsErofs, call.
  destruct (hasMkfsOnce s) eqn:Honce; [done|].
  by destruct (handle env (exec_LookPath "mkfs.erofs") (world s)) as [[path [e|]] w1].
Qed.


(** The probe, with its answer and its calls kept as they are. *)
Lemma wp_hasMkfsErofs_frame (s : State env) Q :
  (∀ s1, hasMkfsOnce s1 = true → hasMkfs s1 = returned (hasMkfsErofs env) s →
         Q (returned (hasMkfsErofs env) s) s1 (calls (hasMkfsErofs env) s)) →
  wp (hasMkfsErofs env) s Q.
Proof. intros HQ. apply HQ; apply hasMkfsErofs_final. Qed.
End Frame.

Ltac wp_step_frame :=
  lazymatch goal with
  | |- wp (ret _) _ _ => apply wp_ret
  | |- wp (bind _ _) _ _ => apply wp_bind
  | |- wp (call _) _ _ => apply wp_call_frame; intros ? ? ? ?
  | |- wp (hasMkfsErofs _) _ _ => apply wp_hasMkfsErofs_frame; intros ? ? ?
  | |- wp (defer _ _) _ _ => unfold defer at 1
  | |- wp (convertTarErofs _ _ _ _) _ _ => unfold convertTarErofs at 1
  | |- wp (match ?x with _ => _ end) _ _ => destruct x eqn:?
  | |- wp _ _ _ => progress cbv beta zeta
  end.

Ltac wp_closure_frame opt :=
  let opts := fresh "opts" in
  let Hopts := fresh "Hopts" in
  unfold LayerConvertFunc;
  destruct (LayerConvertFunc_options opt) as [opts Hopts]; rewrite Hopts;
  repeat wp_step_frame;
  cbn [app event_of fst snd].

Section More.
Variable env : Collaborators.




(** X13. The closure never returns a descriptor together with an error, and
    it returns a nil descriptor with a nil error only as the pass-through:
    the probe answered true and the media type is not a layer type. *)
Theorem result_shapes opt desc s :
  (∀ newDesc err, returned (LayerConvertFunc env opt desc) s ≠ (Some newDesc, Some err)) ∧
  (returned (LayerConvertFunc env opt desc) s = (None, None) →
   returned (hasMkfsErofs env) s = true ∧ IsLayerType env (MediaType desc) = false).
Proof.
  apply (wp_run env _ _ (λ res _,
    (∀ newDesc err, res ≠ (Some newDesc, Some err)) ∧
    (res = (None, None) → returned (hasMkfsErofs env) s = true ∧ _ = false))).
  wp_closure_frame opt; clean_tests.
  all: split; [intros ? ?; try discriminate | intros; simplify_eq; try done].
  all: try match goal with H : commitAccepted ?r = false |- _ =>
         destruct r; [discriminate | done] end.
Qed.
End More.

(** ** Resources, the reader, the builder and the commit *)

Section Resources.
Variable env : Collaborators.

(** X7. Whatever the run returns, what it has opened it releases at its
    end: a reader that was opened is closed by the last call of the run; a
    temporary file that was made is closed and then removed just before
    that; a writer that was opened is closed just before the file is. *)
Theorem resources_released opt desc s :
  let evs := calls (LayerConvertFunc env opt desc) s in
  (∀ d ra, In (EvReaderAt d ra None) evs → ∃ e, [EvRaClose ra e] `suffix_of` evs) ∧
  (∀ dir pattern f, In (EvTempFile dir pattern f None) evs →
     ∃ ra e1 e2 e3,
       [EvBlobClose f e1; EvRemove (Name f) e2; EvRaClose ra e3] `suffix_of` evs) ∧
  (∀ r w, In (EvOpenWriter r w None) evs →
     ∃ f ra e1 e2 e3 e4,
       [EvWriterClose w e1; EvBlobClose f e2; EvRemove (Name f) e3; EvRaClose ra e4]
       `suffix_of` evs).
Proof.
  cbv zeta.
  apply (wp_run env _ _ (λ _ evs,
    (∀ d ra, In (EvReaderAt d ra None) evs → ∃ e, [EvRaClose ra e] `suffix_of` evs) ∧
    (∀ dir pattern f, In (EvTempFile dir pattern f None) evs →
       ∃ ra e1 e2 e3, [EvBlobClose f e1; EvRemove (Name f) e2; EvRaClose ra e3] `suffix_of` evs) ∧
    (∀ r w, In (EvOpenWriter r w None) evs →
       ∃ f ra e1 e2 e3 e4,
         [EvWriterClose w e1; EvBlobClose f e2; EvRemove (Name f) e3; EvRaClose ra e4]
         `suffix_of` evs))).
  wp_closure opt; split_and!; intros * Hin; invert_In Hin.
  all: first [ eexists; solve_suffix | do 4 eexists; solve_suffix | do 6 eexists; solve_suffix ].
Qed.

(** X8. The uncompress converter is called only for a media type that is
    not an uncompressed type, and the store reader is opened on the right
    blob: on the argument of the closure when its media type is an
    uncompressed type, and otherwise on the descriptor that the uncompress
    converter returned for it. *)
Theorem reader_on_uncompressed_blob opt desc s :
  let evs := calls (LayerConvertFunc env opt desc) s in
  (IsUncompressedType env (MediaType desc) = true →
   Forall (λ ev, is_uncompress ev = false) evs) ∧
  (∀ d ra err, In (EvReaderAt d ra err) evs →
     if IsUncompressedType env (MediaType desc) then d = desc
     else segment [EvUncompress desc (Some d) None] evs).
Proof.
  cbv zeta.
  apply (wp_run env _ _ (λ _ evs,
    (IsUncompressedType env (MediaType desc) = true →
     Forall (λ ev, is_uncompress ev = false) evs) ∧
    (∀ d ra err, In (EvReaderAt d ra err) evs →
       if IsUncompressedType env (MediaType desc) then d = desc
       else segment [EvUncompress desc (Some d) None] evs))).
  wp_closure opt; clean_tests; split.
  all: try (intros Hu; first [congruence | repeat constructor]).
  all: intros * Hin; invert_In Hin.
  all: match goal with H : IsUncompressedType _ _ = _ |- _ => rewrite H end.
  all: first [done | solve_segment].
Qed.

(** X9. What the builder reads on its standard input is the section of
    the store reader that starts at offset 0 and has the size of the
    descriptor the reader was opened on, and the file it writes is the
    temporary file made for this run. *)
Theorem builder_input_and_output opt desc s name args stdin out err :
  In (EvCombinedOutput name args stdin out err) (calls (LayerConvertFunc env opt desc) s) →
  ∃ d ra blob,
    segment [EvReaderAt d ra None; EvTempFile "" "erofs-layer-" blob None;
             EvCombinedOutput name args stdin out err]
      (calls (LayerConvertFunc env opt desc) s) ∧
    stdin = NewSectionReader ra 0 (Size d) ∧
    last args = Some (Name blob).
Proof.
  apply (wp_run env _ _ (λ _ evs,
    In (EvCombinedOutput name args stdin out err) evs →
    ∃ d ra blob, segment [EvReaderAt d ra None; EvTempFile "" "erofs-layer-" blob None; _] evs ∧
      stdin = NewSectionReader ra 0 (Size d) ∧ last args = Some (Name blob))).
  wp_closure opt; intros Hin; invert_In Hin.
  all: do 3 eexists; split_and!; [solve_segment | done |].
  all: by rewrite !app_comm_cons, last_snoc.
Qed.


(** X11. In every run, a commit comes only after the whole copy: the calls
    right before it are the successful truncation of its writer, the
    successful copy whose byte count is the size that is committed, the
    successful close of the temporary file and the reading of the digest;
    the expected digest it is given is empty; and a run commits at most
    once. *)
Theorem commit_after_full_copy opt desc s w n expected labels err :
  In (EvCommit w n expected labels err) (calls (LayerConvertFunc env opt desc) s) →
  expected = "" ∧
  (∃ src dgst,
     segment [EvTruncate w 0 None; EvCopy w src n None; EvBlobClose src None;
              EvDigest w dgst; EvCommit w n expected labels err]
       (calls (LayerConvertFunc env opt desc) s)) ∧
  (∀ w' n' expected' labels' err',
     In (EvCommit w' n' expected' labels' err') (calls (LayerConvertFunc env opt desc) s) →
     EvCommit w' n' expected' labels' err' = EvCommit w n expected labels err).
Proof.
  apply (wp_run env _ _ (λ _ evs,
    In (EvCommit w n expected labels err) evs →
    expected = "" ∧
    (∃ src dgst, segment [EvTruncate w 0 None; EvCopy w src n None; EvBlobClose src None;
                          EvDigest w dgst; _] evs) ∧
    (∀ w' n' expected' labels' err', In (EvCommit w' n' expected' labels' err') evs →
       EvCommit w' n' expected' labels' err' = EvCommit w n expected labels err))).
  wp_closure opt; intros Hin; invert_In Hin.
  all: split_and!; [done | do 2 eexists; solve_segment | intros * Hin; by invert_In Hin].
Qed.

(** X12. The errors around the temporary file: when it cannot be made, the
    closure returns that error and the builder is not run; when closing it
    right after the copy fails, the closure returns that error and nothing
    is committed. *)
Theorem staging_file_errors opt desc s e :
  let evs := calls (LayerConvertFunc env opt desc) s in
  let res := returned (LayerConvertFunc env opt desc) s in
  (∀ dir pattern f, In (EvTempFile dir pattern f (Some e)) evs →
     res = (None, Some e) ∧ Forall (λ ev, is_builder ev = false) evs) ∧
  (∀ w f n, segment [EvCopy w f n None; EvBlobClose f (Some e)] evs →
     res = (None, Some e) ∧ Forall (λ ev, is_commit ev = false) evs).
Proof.
  cbv zeta.
  apply (wp_run env _ _ (λ res evs,
    (∀ dir pattern f, In (EvTempFile dir pattern f (Some e)) evs →
       res = (None, Some e) ∧ Forall (λ ev, is_builder ev = false) evs) ∧
    (∀ w f n, segment [EvCopy w f n None; EvBlobClose f (Some e)] evs →
       res = (None, Some e) ∧ Forall (λ ev, is_commit ev = false) evs))).
  wp_closure opt;
    (split; [intros * Hin; invert_In Hin | intros * Hseg; invert_segment Hseg]).
  all: split; [done | repeat constructor].
Qed.
End Resources.

(** ** Properties of the [convert] command *)

Section CliRules.
Variable host : Host.

Lemma cli_wp_ret {A} (a : A) (w : HostWorld host) Q : Q a [] → cli_wp (cli_ret a) w Q.
Proof. done. Qed.

Lemma cli_wp_bind {A B} (m : Cmd host A) (k : A → Cmd host B) w Q :
  cli_wp m w (λ a t1, ∀ w1, cli_wp (k a) w1 (λ b t2, Q b (t1 ++ t2))) →
  cli_wp (cli_bind m k) w Q.
Proof.
  unfold cli_wp, cli_returned, cli_calls, cli_bind.
  destruct (m w) as [[a w1] t1]; cbn. intros H. specialize (H w1).
  by destruct (k a w1) as [[b w2] t2].
Qed.

Lemma cli_wp_call {R} (c : CliCall R) (w : HostWorld host) Q :
  (∀ r, Q r [cli_event_of c r]) → cli_wp (cli_call c) w Q.
Proof.
  intros HQ. unfold cli_wp, cli_returned, cli_calls, cli_call.
  destruct (host_handle host c w) as [r w1]. apply HQ.
Qed.

Lemma cli_wp_run {A} (m : Cmd host A) w (Q : A → list CliEvent → Prop) :
  cli_wp m w Q → Q (cli_returned m w) (cli_calls m w).
Proof. done. Qed.
End CliRules.

Ltac cli_step :=
  lazymatch goal with
  | |- cli_wp (cli_ret _) _ _ => apply cli_wp_ret
  | |- cli_wp (cli_bind _ _) _ _ => apply cli_wp_bind
  | |- cli_wp (cli_call _) _ _ => apply cli_wp_call; intros ?
  | |- cli_wp (cli_defer _ _) _ _ => unfold cli_defer at 1
  | |- cli_wp (match ?x with _ => _ end) _ _ => destruct x eqn:?
  | |- ∀ _ : HostWorld _, _ => intros ?
  | |- cli_wp _ _ _ => progress cbv beta zeta
  end.

Ltac cli_run := unfold Action; repeat cli_step; cbn [app cli_event_of fst snd].

(** The platforms of a list of specifiers that all parse, in their order. *)
Lemma parsePlatforms_inl Parse pss all all' :
  parsePlatforms Parse pss all = inl all' →
  all' = all ++ map (λ ps, (Parse ps).1) pss ∧ Forall (λ ps, (Parse ps).2 = None) pss.
Proof.
  revert all. induction pss as [|ps pss IH]; intros all; cbn.
  - intros [= <-]. by rewrite app_nil_r.
  - destruct (Parse ps) as [p [e|]] eqn:Hp; [done|].
    intros H. apply IH in H as [-> HF]. rewrite <- app_assoc. cbn.
    split; [done|]. constructor; [by rewrite Hp | done].
Qed.

(** The error for the first specifier that does not parse. *)
Lemma parsePlatforms_inr Parse good ps rest all e :
  Forall (λ ps, (Parse ps).2 = None) good →
  (Parse ps).2 = Some e →
  parsePlatforms Parse (good ++ ps :: rest) all =
    inr (Errorfw "invalid platform %q: %w" [FString ps] e).
Proof.
  intros Hgood Hps. revert all. induction Hgood as [|g good Hg _ IH]; intros all; cbn.
  - destruct (Parse ps) as [p o]. cbn in Hps. by subst.
  - destruct (Parse g) as [p o]. cbn in Hg. subst. apply IH.
Qed.

Lemma parsePlatforms_inr_inv Parse pss all err :
  parsePlatforms Parse pss all = inr err →
  ∃ ps e, In ps pss ∧ (Parse ps).2 = Some e ∧
          err = Errorfw "invalid platform %q: %w" [FString ps] e.
Proof.
  revert all. induction pss as [|ps pss IH]; intros all; cbn; [done|].
  destruct (Parse ps) as [p [e|]] eqn:Hp.
  - intros [= <-]. exists ps, e. rewrite Hp. auto.
  - intros H. apply IH in H as (ps' & e & ? & ? & ?). exists ps', e. auto.
Qed.

Ltac cli_invert_In H := cbn [In] in H; destruct_or?; simplify_eq.

Section CliProps.
Variable host : Host.

(** X15. Without a source or a target reference (an argument that is missing
    or empty) the command returns the error "src and target image need to be
    specified" and makes no call on its host. *)
Theorem action_needs_two_refs context w :
  Args_Get context 0 = "" ∨ Args_Get context 1 = "" →
  cli_returned (Action host context) w =
    Some (errors_New "src and target image need to be specified") ∧
  cli_calls (Action host context) w = [].
Proof.
  intros Hrefs. unfold cli_returned, cli_calls, Action.
  assert ((Args_Get context 0 =? "")%string || (Args_Get context 1 =? "")%string = true) as ->.
  { apply orb_true_iff. destruct Hrefs as [H|H]; [left|right]; by apply String.eqb_eq. }
  done.
Qed.

(** X16. With both [--erofs] and [--uncompress] the command always returns
    an error (for the references, for a platform, or "option --erofs
    conflicts with --uncompress") and never makes a client: the only call it
    may have made is the warning about [--oci]. *)
Theorem erofs_conflicts_with_uncompress context w :
  flag_erofs context = true →
  flag_uncompress context = true →
  (cli_returned (Action host context) w =
     Some (errors_New "src and target image need to be specified") ∨
   (∃ ps e, cli_returned (Action host context) w =
              Some (Errorfw "invalid platform %q: %w" [FString ps] e)) ∨
   cli_returned (Action host context) w =
     Some (errors_New "option --erofs conflicts with --uncompress")) ∧
  Forall (λ ev, is_warning ev = true) (cli_calls (Action host context) w).
Proof.
  intros Herofs Hunc.
  change (cli_wp (Action host context) w (λ r t,
    (r = Some (errors_New "src and target image need to be specified") ∨
     (∃ ps e, r = Some (Errorfw "invalid platform %q: %w" [FString ps] e)) ∨
     r = Some (errors_New "option --erofs conflicts with --uncompress")) ∧
    Forall (λ ev, is_warning ev = true) t)).
  unfold Action. rewrite Herofs, Hunc. repeat cli_step; cbn [app cli_event_of fst snd].
  all: simplify_eq; try (split; [auto | repeat constructor]; fail).
  all: repeat case_match; simplify_eq.
  all: match goal with H : parsePlatforms _ _ _ = inr _ |- _ =>
         apply parsePlatforms_inr_inv in H as (? & ? & _ & _ & ->) end.
  all: split; [right; left; eauto | repeat constructor].
Qed.

(** X17. Without [--all-platforms], when a specifier of [--platform] does
    not parse, the command returns the error "invalid platform %q: %w" made
    for the first such specifier and the error of the parser, and makes no
    call on its host. *)
Theorem invalid_platform_rejected context w good ps rest e :
  Args_Get context 0 ≠ "" →
  Args_Get context 1 ≠ "" →
  flag_all_platforms context = false →
  flag_platform context = good ++ ps :: rest →
  Forall (λ ps, (platforms_Parse host ps).2 = None) good →
  (platforms_Parse host ps).2 = Some e →
  cli_returned (Action host context) w =
    Some (Errorfw "invalid platform %q: %w" [FString ps] e) ∧
  cli_calls (Action host context) w = [].
Proof.
  intros H0 H1 Hall Hpss Hgood Hps. unfold cli_returned, cli_calls, Action.
  apply String.eqb_neq in H0, H1. rewrite H0, H1, Hall, Hpss. cbn [orb].
  rewrite (parsePlatforms_inr _ _ _ _ _ _ Hgood Hps).
  assert ((0 <? length (good ++ ps :: rest))%nat = true) as ->.
  { apply Nat.ltb_lt. rewrite length_app. cbn. lia. }
  done.
Qed.

(** X18. With [--all-platforms] the specifiers of [--platform] are not even
    parsed: the command behaves the same whatever they are. *)
Theorem all_platforms_ignores_platform context pss :
  flag_all_platforms context = true →
  Action host context =
  Action host {| Args := Args context; flag_erofs := flag_erofs context;
                 flag_erofs_compressors := flag_erofs_compressors context;
                 flag_erofs_mkfs_options := flag_erofs_mkfs_options context;
                 flag_uncompress := flag_uncompress context; flag_oci := flag_oci context;
                 flag_platform := pss; flag_all_platforms := flag_all_platforms context |}.
Proof. intros Hall. unfold Action, Args_Get. cbn. by rewrite Hall. Qed.

(** What the command hands to [converter.Convert]. *)
Lemma Action_convert_opts context w client dstRef srcRef opts img err :
  In (EvConvert client dstRef srcRef opts img err) (cli_calls (Action host context) w) →
  dstRef = Args_Get context 1 ∧ srcRef = Args_Get context 0 ∧
  dstRef ≠ "" ∧ srcRef ≠ "" ∧
  opts =
    [WithPlatform
       (if flag_all_platforms context then platforms_All
        else match flag_platform context with
             | [] => platforms_DefaultStrict
             | pss => platforms_Ordered (map (λ ps, (platforms_Parse host ps).1) pss)
             end)] ++
    (if flag_oci context then [WithDockerToOCI true] else []) ++
    layerOpts context.
Proof.
  apply (cli_wp_run host _ _ (λ _ t,
    In (EvConvert client dstRef srcRef opts img err) t →
    dstRef = Args_Get context 1 ∧ srcRef = Args_Get context 0 ∧ dstRef ≠ "" ∧ srcRef ≠ "" ∧
    opts = [WithPlatform _] ++ _ ++ layerOpts context)).
  cli_run; intros Hin; cli_invert_In Hin.
  all: match goal with H : _ || _ = false |- _ =>
         apply orb_false_iff in H as [?%String.eqb_neq ?%String.eqb_neq] end.
  all: split_and!; try done.
  all: unfold layerOpts; clean_tests.
  all: repeat match goal with H : ?x = _ |- context [?x] => rewrite H end.
  all: destruct (flag_all_platforms context); simplify_eq; try done.
  all: destruct (flag_platform context) as [|ps pss]; cbn [length Nat.ltb Nat.leb] in *;
    simplify_eq; try done.
  all: try (match goal with H : context [parsePlatforms ?P ?l ?a] |- _ =>
         destruct (parsePlatforms P l a) eqn:Hparse end; simplify_eq;
         apply parsePlatforms_inl in Hparse as [-> _]).
  all: by destruct (flag_oci context), (flag_uncompress context).
Qed.
(** X19. Whenever the command calls [converter.Convert], the destination is
    its second argument and the source its first, and the options are, in
    this order: the platform matcher ([platforms.All] with
    [--all-platforms], else the parsed specifiers of [--platform] in their
    order, else the strict default), [WithDockerToOCI(true)] with [--oci],
    and the layer converter: the uncompress converter with [--uncompress],
    the EROFS converter with the compressors and the extra options of the
    flags with [--erofs], none otherwise. *)
Theorem convert_call context w client dstRef srcRef opts img err :
  In (EvConvert client dstRef srcRef opts img err) (cli_calls (Action host context) w) →
  dstRef = Args_Get context 1 ∧ srcRef = Args_Get context 0 ∧
  dstRef ≠ "" ∧ srcRef ≠ "" ∧
  opts =
    [WithPlatform
       (if flag_all_platforms context then platforms_All
        else match flag_platform context with
             | [] => platforms_DefaultStrict
             | pss => platforms_Ordered (map (λ ps, (platforms_Parse host ps).1) pss)
             end)] ++
    (if flag_oci context then [WithDockerToOCI true] else []) ++
    layerOpts context.
Proof. apply Action_convert_opts. Qed.

End CliProps.

Section CliMore.
Variable host : Host.

(** X20. The command never sets a UUID: an EROFS layer converter that it
    hands to [converter.Convert] carries the compressors and the extra
    options of the flags and nothing else, so the flags it gives the builder
    begin with "-U" and the default UUID. *)
Theorem cli_uses_default_uuid context w client dstRef srcRef opts img err Opts :
  In (EvConvert client dstRef srcRef opts img err) (cli_calls (Action host context) w) →
  In (WithLayerConvertFunc (convert_LayerConvertFunc Opts)) opts →
  applyOptions Opts zeroOptions =
    ({| uuid := ""; compressors := flag_erofs_compressors context;
        extraMkfsOpts := flag_erofs_mkfs_options context |}, None) ∧
  ∃ rest, mkfsExtraOpts (applyOptions Opts zeroOptions).1 =
            "-U" :: "fead9a88-fd26-578a-a655-9cbddcb89e76" :: rest.
Proof.
  intros Hcall Hin. apply Action_convert_opts in Hcall as (_ & _ & _ & _ & ->).
  assert (Opts = [WithCompressors (flag_erofs_compressors context);
                  WithExtraMkfsOption (flag_erofs_mkfs_options context)]) as ->.
  { unfold layerOpts in Hin.
    destruct (flag_oci context), (flag_uncompress context), (flag_erofs context);
      simpl in Hin; destruct_or?; simplify_eq; done. }
  split; [done|]. by apply mkfsExtraOpts_default_uuid.
Qed.

(** X21. What the command acquires it gives back as its last calls: a client
    that was made is cancelled by the last call, and a lease that was taken
    is released just before that. *)
Theorem client_and_lease_released context w client :
  let evs := cli_calls (Action host context) w in
  (In (EvNewClient client None) evs → [EvCancel client] `suffix_of` evs) ∧
  (In (EvWithLease client None) evs →
     ∃ e, [EvDone client e; EvCancel client] `suffix_of` evs).
Proof.
  cbv zeta.
  apply (cli_wp_run host _ _ (λ _ evs,
    (In (EvNewClient client None) evs → [EvCancel client] `suffix_of` evs) ∧
    (In (EvWithLease client None) evs → ∃ e, [EvDone client e; EvCancel client] `suffix_of` evs))).
  cli_run; (split; intros Hin; cli_invert_In Hin).
  all: first [ solve_suffix | eexists; solve_suffix ].
Qed.

(** X22. The command returns nil exactly on the runs in which
    [converter.Convert] returns no error, and then it prints the digest of
    the target of the new image, once, right after the conversion; the
    errors of [commands.NewClient], of [client.WithLease] and of
    [converter.Convert] are returned as they are, and nothing is printed. *)
Theorem action_outcome context w :
  let evs := cli_calls (Action host context) w in
  let res := cli_returned (Action host context) w in
  (res = None →
   ∃ client opts img e,
     [EvConvert client (Args_Get context 1) (Args_Get context 0) opts img None;
      EvFprintln (Digest (Target img)); EvDone client e; EvCancel client] `suffix_of` evs) ∧
  (∀ client dstRef srcRef opts img,
     In (EvConvert client dstRef srcRef opts img None) evs → res = None) ∧
  (∀ e, (∃ client, In (EvNewClient client (Some e)) evs) ∨
        (∃ client, In (EvWithLease client (Some e)) evs) ∨
        (∃ client dstRef srcRef opts img,
           In (EvConvert client dstRef srcRef opts img (Some e)) evs) →
     res = Some e ∧ Forall (λ ev, ∀ a, ev ≠ EvFprintln a) evs).
Proof.
  cbv zeta.
  apply (cli_wp_run host _ _ (λ res evs,
    (res = None →
     ∃ client opts img e,
       [EvConvert client (Args_Get context 1) (Args_Get context 0) opts img None;
        EvFprintln (Digest (Target img)); EvDone client e; EvCancel client] `suffix_of` evs) ∧
    (∀ client dstRef srcRef opts img,
       In (EvConvert client dstRef srcRef opts img None) evs → res = None) ∧
    (∀ e, (∃ client, In (EvNewClient client (Some e)) evs) ∨
          (∃ client, In (EvWithLease client (Some e)) evs) ∨
          (∃ client dstRef srcRef opts img,
             In (EvConvert client dstRef srcRef opts img (Some e)) evs) →
       res = Some e ∧ Forall (λ ev, ∀ a, ev ≠ EvFprintln a) evs))).
  cli_run; split_and!.
  all: try (intros Hres; try discriminate Hres; do 4 eexists; solve_suffix).
  all: try (intros * Hin; by cli_invert_In Hin).
  all: intros ? [[? Hin] | [[? Hin] | (? & ? & ? & ? & ? & Hin)]]; cli_invert_In Hin.
  all: split; [done | repeat constructor; done].
Qed.
End CliMore.

(** ** Properties of the command registration of [main] *)

Lemma customMap_keyed customs : keyed_by_name (customMap customs).
Proof.
  unfold customMap.
  assert (∀ sc, keyed_by_name sc →
            keyed_by_name (foldl (λ sc subcmd, <[cmd_Name subcmd := subcmd]> sc) sc customs))
    as H.
  { induction customs as [|c customs IH]; intros sc Hsc; [done|]. cbn. apply IH.
    intros name c' Hl. destruct (decide (cmd_Name c = name)) as [<-|Hne].
    - rewrite lookup_insert_eq in Hl. by simplify_eq.
    - rewrite lookup_insert_ne in Hl by done. by apply Hsc. }
  apply H. intros ? ? Hl. by rewrite lookup_empty in Hl.
Qed.

Lemma keyed_delete sc name : keyed_by_name sc → keyed_by_name (delete name sc).
Proof.
  intros Hsc k c Hl. apply Hsc. by apply lookup_delete_Some in Hl as [_ ?].
Qed.

(** The inner loop when no entry has the name of the subcommand. *)
Lemma replaceOne_none entries cur sc :
  Forall (λ entry, entry.1 ≠ cmd_Name cur) entries →
  replaceOne entries cur sc = (cur, sc).
Proof.
  unfold replaceOne. induction 1 as [|entry entries Hne _ IH]; [done|]. cbn.
  apply String.eqb_neq in Hne. by rewrite Hne.
Qed.

(** The inner loop does not depend on the order of the range: it is a
    lookup of the name of the subcommand. *)
Lemma replaceOne_lookup entries cur sc :
  entries ≡ₚ map_to_list sc →
  keyed_by_name sc →
  replaceOne entries cur sc =
    match sc !! cmd_Name cur with
    | Some c => (c, delete (cmd_Name cur) sc)
    | None => (cur, sc)
    end.
Proof.
  intros Hperm Hkeyed.
  assert (Hnodup : NoDup entries.*1).
  { rewrite Hperm. apply NoDup_fst_map_to_list. }
  assert (Hin : ∀ k c, (k, c) ∈ entries ↔ sc !! k = Some c).
  { intros k c. rewrite Hperm. apply elem_of_map_to_list. }
  destruct (sc !! cmd_Name cur) as [c|] eqn:Hl.
  - apply Hin in Hl. apply list_elem_of_split in Hl as (l1 & l2 & ->).
    rewrite fmap_app, fmap_cons in Hnodup. cbn in Hnodup.
    apply NoDup_app in Hnodup as (_ & Hl1 & Hl2). apply NoDup_cons in Hl2 as [Hl2 _].
    unfold replaceOne. rewrite foldl_app.
    fold (replaceOne l1 cur sc). rewrite replaceOne_none.
    + cbn. rewrite String.eqb_refl. fold (replaceOne l2 c (delete (cmd_Name cur) sc)).
      assert (Hc : cmd_Name c = cmd_Name cur).
      { apply Hkeyed. apply Hin. apply elem_of_app. right. left. }
      rewrite replaceOne_none; [done|].
      apply Forall_forall. intros [k c'] Hk. cbn. rewrite Hc. intros ->.
      apply Hl2. apply list_elem_of_fmap. by exists (cmd_Name cur, c').
    + apply Forall_forall. intros [k c'] Hk. cbn. intros ->.
      apply (Hl1 (cmd_Name cur)); [|left].
      apply list_elem_of_fmap. by exists (cmd_Name cur, c').
  - apply replaceOne_none. apply Forall_forall. intros [k c'] Hk. cbn. intros ->.
    apply Hin in Hk. congruence.
Qed.

Section Main.
Variable order : nat → gmap string Command → list (string * Command).
Variable order' : gmap string Command → list (string * Command).
Hypothesis order_perm : ∀ j sc, order j sc ≡ₚ map_to_list sc.
Hypothesis order'_perm : ∀ sc, order' sc ≡ₚ map_to_list sc.

(** The replace loop keeps the length of the list and the names at every
    place, and what is left in the map is still keyed by name. *)
Lemma replaceLoop_names j subs sc :
  keyed_by_name sc →
  cmd_Name <$> (replaceLoop order j subs sc).1 = cmd_Name <$> subs ∧
  keyed_by_name (replaceLoop order j subs sc).2.
Proof.
  revert j sc. induction subs as [|cur rest IH]; intros j sc Hsc; [done|].
  cbn. rewrite (replaceOne_lookup _ _ _ (order_perm j sc) Hsc).
  destruct (sc !! cmd_Name cur) as [c|] eqn:Hl.
  - destruct (IH (S j) (delete (cmd_Name cur) sc) (keyed_delete _ _ Hsc)) as [Hn Hk].
    destruct (replaceLoop order (S j) rest (delete (cmd_Name cur) sc)) as [rest' sc''].
    cbn in *. split; [|done]. rewrite Hn. f_equal. by apply Hsc.
  - destruct (IH (S j) sc Hsc) as [Hn Hk].
    destruct (replaceLoop order (S j) rest sc) as [rest' sc'']. cbn in *. by rewrite Hn.
Qed.

(** The replace loop with an empty map changes nothing. *)
Lemma replaceLoop_empty j subs : replaceLoop order j subs ∅ = (subs, ∅).
Proof.
  revert j. induction subs as [|cur rest IH]; intros j; [done|]. cbn.
  rewrite (replaceOne_lookup _ _ _ (order_perm j ∅)), lookup_empty, IH; [done|].
  intros ? ? Hl. by rewrite lookup_empty in Hl.
Qed.

(** The replace loop with the one custom command of [main]. *)
Lemma replaceLoop_single j subs c :
  replaceLoop order j subs {[cmd_Name c := c]} =
    match list_find (λ s, cmd_Name s = cmd_Name c) subs with
    | Some (i, _) => (<[i := c]> subs, ∅)
    | None => (subs, {[cmd_Name c := c]})
    end.
Proof.
  assert (Hk : keyed_by_name ({[cmd_Name c := c]} : gmap string Command)).
  { intros k c' Hl. apply lookup_singleton_Some in Hl as [<- <-]. done. }
  revert j. induction subs as [|cur rest IH]; intros j; [done|].
  cbn [replaceLoop list_find].
  rewrite (replaceOne_lookup _ _ _ (order_perm j _) Hk).
  destruct (decide (cmd_Name cur = cmd_Name c)) as [Heq|Hne].
  - by rewrite Heq, lookup_singleton_eq, delete_singleton_eq, replaceLoop_empty.
  - rewrite lookup_singleton_ne by done. rewrite IH.
    destruct (list_find (λ s, cmd_Name s = cmd_Name c) rest) as [[i s]|]; done.
Qed.

(** X23. Where no command is named "images", [main] leaves the commands as
    they are: the custom commands are not registered at all. *)
Theorem register_without_images customs cmds :
  Forall (λ c, cmd_Name c ≠ "images") cmds →
  registerCommands order order' customs cmds = cmds.
Proof.
  induction 1 as [|c cmds Hc _ IH]; [done|]. cbn.
  apply String.eqb_neq in Hc. by rewrite Hc, IH.
Qed.

(** X24. Only the first command named "images" is changed, and only in its
    subcommands: the commands before and after it, a second "images"
    command among them, stay as they are. *)
Theorem register_first_images customs before c after :
  Forall (λ c, cmd_Name c ≠ "images") before →
  cmd_Name c = "images" →
  registerCommands order order' customs (before ++ c :: after) =
    before ++
    mkCommand "images" (cmd_Usage c)
      (mergeSubcommands order order' customs (cmd_Subcommands c)) :: after.
Proof.
  intros Hbefore Hc. induction Hbefore as [|b before Hb _ IH]; cbn.
  - by rewrite Hc.
  - apply String.eqb_neq in Hb. by rewrite Hb, IH.
Qed.

(** The merge with the one custom command of [main]. *)
Lemma mergeSubcommands_single subs :
  mergeSubcommands order order' customCommands subs =
    match list_find (λ s, cmd_Name s = "convert") subs with
    | Some (i, _) => <[i := ConvertCommand]> subs
    | None => subs ++ [ConvertCommand]
    end.
Proof.
  unfold mergeSubcommands, customCommands, customMap. cbn [foldl].
  rewrite insert_empty.
  change (cmd_Name ConvertCommand) with "convert" at 1.
  pose proof (replaceLoop_single 0 subs ConvertCommand) as H.
  change (cmd_Name ConvertCommand) with "convert" in H. rewrite H.
  destruct (list_find _ subs) as [[i s]|].
  - assert (order' ∅ = []) as ->.
    { apply Permutation_nil_r. rewrite order'_perm. by rewrite map_to_list_empty. }
    by rewrite app_nil_r.
  - assert (order' {["convert" := ConvertCommand]} = [("convert", ConvertCommand)]) as ->.
    { apply Permutation_singleton_r. rewrite order'_perm. by rewrite map_to_list_singleton. }
    done.
Qed.

(** X25. What [main] does to the subcommands of "images" with its one custom
    command, in whatever order the ranges over the map go: when a
    subcommand is named "convert", the first such is replaced by
    [ConvertCommand] and all the others, later ones named "convert" too,
    stay at their places; when none is, [ConvertCommand] is appended. *)
Theorem merge_convert_command subs :
  mergeSubcommands order order' customCommands subs =
    match list_find (λ s, cmd_Name s = "convert") subs with
    | Some (i, _) => <[i := ConvertCommand]> subs
    | None => subs ++ [ConvertCommand]
    end.
Proof. apply mergeSubcommands_single. Qed.

(** X26. After [main] has changed the subcommands, exactly one more use of
    the same step changes nothing: [ConvertCommand] is registered once. *)
Theorem merge_convert_command_idempotent subs :
  mergeSubcommands order order' customCommands
    (mergeSubcommands order order' customCommands subs) =
  mergeSubcommands order order' customCommands subs.
Proof.
  rewrite !mergeSubcommands_single.
  destruct (list_find (λ s, cmd_Name s = "convert") subs) as [[i s]|] eqn:Hfind.
  - apply list_find_Some in Hfind as (Hi & Hs & Hbefore).
    assert (list_find (λ s, cmd_Name s = "convert") (<[i := ConvertCommand]> subs) =
            Some (i, ConvertCommand)) as ->.
    { apply list_find_Some. split_and!.
      - apply list_lookup_insert_eq. by eapply lookup_lt_Some.
      - done.
      - intros j y Hj Hlt. rewrite list_lookup_insert_ne in Hj by lia. by eapply Hbefore. }
    by rewrite list_insert_insert_eq.
  - apply list_find_None in Hfind.
    assert (list_find (λ s, cmd_Name s = "convert") (subs ++ [ConvertCommand]) =
            Some (length subs, ConvertCommand)) as ->.
    { apply list_find_Some. split_and!.
      - by rewrite lookup_app_r, Nat.sub_diag.
      - done.
      - intros j y Hj Hlt. rewrite lookup_app_l in Hj by done.
        eapply Forall_lookup_1 in Hfind; [|done]. done. }
    rewrite insert_app_r_alt, Nat.sub_diag by done. done.
Qed.

Lemma replaceLoop_size j subs sc :
  keyed_by_name sc → (size (replaceLoop order j subs sc).2 ≤ size sc)%nat.
Proof.
  revert j sc. induction subs as [|cur rest IH]; intros j sc Hsc; [done|].
  cbn. rewrite (replaceOne_lookup _ _ _ (order_perm j sc) Hsc).
  destruct (sc !! cmd_Name cur) as [c|] eqn:Hl.
  - pose proof (IH (S j) (delete (cmd_Name cur) sc) (keyed_delete _ _ Hsc)) as Hle.
    destruct (replaceLoop order (S j) rest (delete (cmd_Name cur) sc)) as [rest' sc''].
    cbn in *. rewrite map_size_delete, Hl in Hle. cbn in Hle. lia.
  - pose proof (IH (S j) sc Hsc) as Hle.
    by destruct (replaceLoop order (S j) rest sc) as [rest' sc''].
Qed.

Lemma customMap_size customs : (size (customMap customs) ≤ List.length customs)%nat.
Proof.
  unfold customMap.
  assert (∀ sc : gmap string Command,
            (size (foldl (λ sc subcmd, <[cmd_Name subcmd := subcmd]> sc) sc customs)
             ≤ size sc + List.length customs)%nat) as H.
  { induction customs as [|c customs IH]; intros sc; cbn; [lia|].
    etrans; [apply IH|]. rewrite map_size_insert. destruct (sc !! cmd_Name c); cbn; lia. }
  specialize (H ∅). by rewrite map_size_empty in H.
Qed.

(** X27. For any custom commands and any order of the ranges: the merged
    list begins with as many commands as there were subcommands, with the
    same names place by place, and at most one command for every custom
    command comes after them. *)
Theorem merge_keeps_names customs subs :
  ∃ kept added,
    mergeSubcommands order order' customs subs = kept ++ added ∧
    cmd_Name <$> kept = cmd_Name <$> subs ∧
    (List.length added ≤ List.length customs)%nat.
Proof.
  unfold mergeSubcommands.
  destruct (replaceLoop_names 0 subs _ (customMap_keyed customs)) as [Hn Hk].
  pose proof (replaceLoop_size 0 subs _ (customMap_keyed customs)) as Hsize.
  destruct (replaceLoop order 0 subs (customMap customs)) as [subs' sc']. cbn in *.
  exists subs', (order' sc').*2. split_and!; [done..|].
  rewrite length_fmap, order'_perm, length_map_to_list.
  etrans; [done|]. apply customMap_size.
Qed.
End Main.

(** ** More runs in the scripted worlds *)

Lemma builder_input_and_output_witness :
  In (EvCombinedOutput "mkfs.erofs"
        ["--tar=f"; "--aufs"; "--quiet"; "-U"; "fead9a88-fd26-578a-a655-9cbddcb89e76";
         "/tmp/erofs-layer-123"]
        (NewSectionReader (ReaderAtHandle 1) 0 300) [] None)
     (calls (LayerConvertFunc (scripted allFine) [] gzipLayer) (fresh allFine)) ∧
  ∃ d ra, NewSectionReader (ReaderAtHandle 1) 0 300 = NewSectionReader ra 0 (Size d).
Proof.
  assert (H : In (EvCombinedOutput "mkfs.erofs"
        ["--tar=f"; "--aufs"; "--quiet"; "-U"; "fead9a88-fd26-578a-a655-9cbddcb89e76";
         "/tmp/erofs-layer-123"]
        (NewSectionReader (ReaderAtHandle 1) 0 300) [] None)
     (calls (LayerConvertFunc (scripted allFine) [] gzipLayer) (fresh allFine))).
  { vm_compute. do 5 right. left. reflexivity. }
  split; [exact H|].
  destruct (builder_input_and_output (scripted allFine) [] gzipLayer (fresh allFine)
              _ _ _ _ _ H) as (d & ra & blob & _ & Hsr & _).
  exists d, ra. exact Hsr.
Defined.


(** The commit of the gzip layer where the store already holds the blob. *)
Lemma commit_after_full_copy_witness :
  In (EvCommit (WriterHandle 2) 4096 "" (<[LabelUncompressed := "sha256:eeee"]> storedLabels)
        (Some ErrAlreadyExists))
     (calls (LayerConvertFunc (scripted commitExists) [] gzipLayer) (fresh commitExists)) ∧
  ∃ src dgst,
    segment [EvTruncate (WriterHandle 2) 0 None; EvCopy (WriterHandle 2) src 4096 None;
             EvBlobClose src None; EvDigest (WriterHandle 2) dgst;
             EvCommit (WriterHandle 2) 4096 ""
               (<[LabelUncompressed := "sha256:eeee"]> storedLabels) (Some ErrAlreadyExists)]
      (calls (LayerConvertFunc (scripted commitExists) [] gzipLayer) (fresh commitExists)).
Proof.
  assert (H : In (EvCommit (WriterHandle 2) 4096 ""
                    (<[LabelUncompressed := "sha256:eeee"]> storedLabels)
                    (Some ErrAlreadyExists))
     (calls (LayerConvertFunc (scripted commitExists) [] gzipLayer) (fresh commitExists))).
  { vm_compute. do 11 right. left. reflexivity. }
  exact (conj H (proj1 (proj2 (commit_after_full_copy (scripted commitExists) [] gzipLayer
                                 (fresh commitExists) _ _ _ _ _ H)))).
Defined.

(** The command with a source reference only. *)
Lemma action_needs_two_refs_witness :
  (Args_Get oneRefContext 0 = "" ∨ Args_Get oneRefContext 1 = "") ∧
  cli_returned (Action scriptedHost oneRefContext) tt =
    Some (errors_New "src and target image need to be specified").
Proof.
  assert (H : Args_Get oneRefContext 0 = "" ∨ Args_Get oneRefContext 1 = "")
    by (right; reflexivity).
  exact (conj H (proj1 (action_needs_two_refs scriptedHost oneRefContext tt H))).
Defined.

(** The command with [--erofs] and [--uncompress]. *)
Lemma erofs_conflicts_with_uncompress_witness :
  flag_erofs conflictContext = true ∧ flag_uncompress conflictContext = true ∧
  Forall (λ ev, is_warning ev = true) (cli_calls (Action scriptedHost conflictContext) tt).
Proof.
  assert (H1 : flag_erofs conflictContext = true) by reflexivity.
  assert (H2 : flag_uncompress conflictContext = true) by reflexivity.
  exact (conj H1 (conj H2 (proj2 (erofs_conflicts_with_uncompress scriptedHost conflictContext
                                    tt H1 H2)))).
Defined.

(** The command with a platform that does not parse between two that do. *)
Lemma invalid_platform_rejected_witness :
  cli_returned (Action scriptedHost badPlatformContext) tt =
    Some (Errorfw "invalid platform %q: %w" [FString "plan9"] (ErrExternal "invalid argument")).
Proof.
  refine (proj1 (invalid_platform_rejected scriptedHost badPlatformContext tt
                   ["linux/amd64"] "plan9" ["linux/arm64"] (ErrExternal "invalid argument")
                   _ _ _ _ _ _)).
  - discriminate.
  - discriminate.
  - reflexivity.
  - reflexivity.
  - repeat constructor.
  - reflexivity.
Defined.

(** The command with [--all-platforms] and a platform that does not parse. *)
Lemma all_platforms_ignores_platform_witness :
  flag_all_platforms allPlatformsContext = true ∧
  Action scriptedHost allPlatformsContext =
  Action scriptedHost
    {| Args := ["example.com/foo:orig"; "example.com/foo:erofs"];
       flag_erofs := true; flag_erofs_compressors := "";
       flag_erofs_mkfs_options := ""; flag_uncompress := false; flag_oci := true;
       flag_platform := []; flag_all_platforms := true |}.
Proof.
  assert (H : flag_all_platforms allPlatformsContext = true) by reflexivity.
  exact (conj H (all_platforms_ignores_platform scriptedHost allPlatformsContext [] H)).
Defined.

(** The conversion that the command asks for with [--erofs --oci] and two platforms. *)
Lemma convert_call_witness :
  In (EvConvert (ClientHandle 1) "example.com/foo:erofs" "example.com/foo:orig"
        [WithPlatform (platforms_Ordered [amd64; arm64]); WithDockerToOCI true;
         WithLayerConvertFunc (convert_LayerConvertFunc
           [WithCompressors "lz4hc,12"; WithExtraMkfsOption ""])]
        {| image_Name := "example.com/foo:erofs"; Target := tarLayer |} None)
     (cli_calls (Action scriptedHost erofsContext) tt) ∧
  "example.com/foo:erofs" = Args_Get erofsContext 1.
Proof.
  assert (H : In (EvConvert (ClientHandle 1) "example.com/foo:erofs" "example.com/foo:orig"
        [WithPlatform (platforms_Ordered [amd64; arm64]); WithDockerToOCI true;
         WithLayerConvertFunc (convert_LayerConvertFunc
           [WithCompressors "lz4hc,12"; WithExtraMkfsOption ""])]
        {| image_Name := "example.com/foo:erofs"; Target := tarLayer |} None)
     (cli_calls (Action scriptedHost erofsContext) tt)).
  { vm_compute. do 2 right. left. reflexivity. }
  exact (conj H (proj1 (convert_call scriptedHost erofsContext tt _ _ _ _ _ _ H))).
Defined.


(** The flags of the builder for the converter that the command builds. *)
Lemma cli_uses_default_uuid_witness :
  In (EvConvert (ClientHandle 1) "example.com/foo:erofs" "example.com/foo:orig"
        [WithPlatform (platforms_Ordered [amd64; arm64]); WithDockerToOCI true;
         WithLayerConvertFunc (convert_LayerConvertFunc
           [WithCompressors "lz4hc,12"; WithExtraMkfsOption ""])]
        {| image_Name := "example.com/foo:erofs"; Target := tarLayer |} None)
     (cli_calls (Action scriptedHost erofsContext) tt) ∧
  ∃ rest,
    mkfsExtraOpts (applyOptions [WithCompressors "lz4hc,12"; WithExtraMkfsOption ""]
                     zeroOptions).1 =
      "-U" :: "fead9a88-fd26-578a-a655-9cbddcb89e76" :: rest.
Proof.
  assert (H : In (EvConvert (ClientHandle 1) "example.com/foo:erofs" "example.com/foo:orig"
        [WithPlatform (platforms_Ordered [amd64; arm64]); WithDockerToOCI true;
         WithLayerConvertFunc (convert_LayerConvertFunc
           [WithCompressors "lz4hc,12"; WithExtraMkfsOption ""])]
        {| image_Name := "example.com/foo:erofs"; Target := tarLayer |} None)
     (cli_calls (Action scriptedHost erofsContext) tt)).
  { vm_compute. do 2 right. left. reflexivity. }
  split; [exact H|].
  refine (proj2 (cli_uses_default_uuid scriptedHost erofsContext tt _ _ _ _ _ _ _ H _)).
  simpl. auto.
Defined.

Lemma listOrder_perm j sc : listOrder j sc ≡ₚ map_to_list sc.
Proof. reflexivity. Defined.

(** An application with the [version] command only. *)
Lemma register_without_images_witness :
  Forall (λ c, cmd_Name c ≠ "images") [versionCommand] ∧
  registerCommands listOrder (listOrder 0) customCommands [versionCommand] = [versionCommand].
Proof.
  assert (H : Forall (λ c, cmd_Name c ≠ "images") [versionCommand]).
  { repeat constructor. discriminate. }
  exact (conj H (register_without_images listOrder (listOrder 0) customCommands
                   [versionCommand] H)).
Defined.

(** An application with two [images] commands. *)
Lemma register_first_images_witness :
  registerCommands listOrder (listOrder 0) customCommands
    [versionCommand; imagesCommand; imagesCommand] =
  [versionCommand;
   mkCommand "images" "manage images"
     (mergeSubcommands listOrder (listOrder 0) customCommands (cmd_Subcommands imagesCommand));
   imagesCommand].
Proof.
  refine (register_first_images listOrder (listOrder 0) customCommands
            [versionCommand] imagesCommand [imagesCommand] _ _).
  - repeat constructor. discriminate.
  - reflexivity.
Defined.

(** The subcommands of [images] with an older [convert] between two others. *)
Lemma merge_convert_command_witness :
  mergeSubcommands listOrder (listOrder 0) customCommands (cmd_Subcommands imagesCommand) =
    [mkCommand "pull" "pull an image" []; ConvertCommand; mkCommand "push" "push an image" []].
Proof.
  exact (merge_convert_command listOrder (listOrder 0) listOrder_perm (listOrder_perm 0)
           (cmd_Subcommands imagesCommand)).
Defined.

(** Merging twice into a list without [convert]. *)
Lemma merge_convert_command_idempotent_witness :
  mergeSubcommands listOrder (listOrder 0) customCommands
    (mergeSubcommands listOrder (listOrder 0) customCommands [versionCommand]) =
  mergeSubcommands listOrder (listOrder 0) customCommands [versionCommand].
Proof.
  exact (merge_convert_command_idempotent listOrder (listOrder 0) listOrder_perm
           (listOrder_perm 0) [versionCommand]).
Defined.

(** The names kept and the command added for a list without [convert]. *)
Lemma merge_keeps_names_witness :
  ∃ kept added,
    mergeSubcommands listOrder (listOrder 0) customCommands [versionCommand] = kept ++ added ∧
    cmd_Name <$> kept = cmd_Name <$> [versionCommand] ∧
    (List.length added ≤ List.length customCommands)%nat.
Proof.
  exact (merge_keeps_names listOrder (listOrder 0) listOrder_perm (listOrder_perm 0)
           customCommands [versionCommand]).
Defined.
